(** * Double pendulum: the model of [pendulum.py]

    The class [DoublePendulum] holds the physical parameters of a two-link
    pendulum, evaluates the right-hand side of its equations of motion
    ([derivatives]) and integrates them on a fixed grid with the classical
    Runge-Kutta scheme ([integrate]).

    Conventions of the embedding.
    - A Python [float] is a real number of [R]: arithmetic is exact, there
      is no rounding and no overflow.  [np.sin], [np.cos] and [abs] are
      [sin], [cos] and [Rabs].  The bounds on the samples of the time grid
      are given with a margin, so that they do not hinge on how a quotient
      that is within rounding of a whole number is rounded.
    - A one-dimensional [np.ndarray] is a [list R]; its [shape] is the
      one-element tuple holding its length.  The (N, 4) array [Y] is a list of
      rows.  Such arrays hold finite numbers only; the functions of
      [pendulum.py] are modelled a second time on arrays that may hold NaN
      (the definitions named [..._nan]), and the two models agree on finite
      data.
    - A Python [str] is a [string] holding its UTF-8 bytes; [lower] is
      [str.lower] as far as the program can observe it: on the ASCII
      letters and on KELVIN SIGN, the one other character whose lower case
      is an ASCII letter.
    - A call either raises or returns, and it leaves a log of the array
      constructions and of the evaluations of [derivatives] it performed, in
      program order: the monad [M] below. *)

From Stdlib Require Import Reals Lra Lia List String Ascii Bool Arith ZArith.
Import ListNotations.
Local Open Scope R_scope.

(** ** Exceptions, events and the monad of a call *)

Inductive exn : Type :=
| ValueError (msg : string)
| NotImplementedError (msg : string)
| IndexError (msg : string).

Inductive event : Type :=
| ev_arange (n : nat)                (* np.arange built a grid of n samples *)
| ev_zeros (rows cols : nat)         (* np.zeros built a rows x cols array  *)
| ev_setrow (i : nat)                (* Y[i, :] = ... was executed           *)
| ev_derivatives (state : list R)    (* self.derivatives(state) was called  *)
| ev_array (a : list R).             (* np.array built the array a          *)

Definition M (A : Type) : Type := (list event * (exn + A))%type.

Definition ret {A : Type} (a : A) : M A := ([], inr a).

Definition raise {A : Type} (e : exn) : M A := ([], inl e).

Definition emit (ev : event) : M unit := ([ev], inr tt).

Definition lift {A : Type} (r : exn + A) : M A := ([], r).

Definition bind {A B : Type} (c : M A) (k : A -> M B) : M B :=
  match c with
  | (log, inl e) => (log, inl e)
  | (log, inr a) => (log ++ fst (k a), snd (k a))
  end.

Declare Scope pendulum_scope.
Delimit Scope pendulum_scope with pend.
Notation "x <- c ;; k" := (bind c (fun x => k))
  (at level 61, c at next level, right associativity) : pendulum_scope.
Notation "c ;; k" := (bind c (fun _ => k))
  (at level 61, right associativity) : pendulum_scope.
Local Open Scope pendulum_scope.

Definition log_of {A : Type} (c : M A) : list event := fst c.
Definition result_of {A : Type} (c : M A) : exn + A := snd c.

(** [for x in xs: s = body(x, s)] *)
Fixpoint for_each {X S : Type} (xs : list X) (body : X -> S -> M S) (s : S)
  : M S :=
  match xs with
  | [] => ret s
  | x :: xs' => s' <- body x s ;; for_each xs' body s'
  end.

(** ** Comparisons on floats *)

Definition Rltb (x y : R) : bool := if Rlt_dec x y then true else false.
Definition Rleb (x y : R) : bool := if Rle_dec x y then true else false.

(** ** The fragment of numpy that [pendulum.py] uses *)

Definition ndarray : Type := list R.

Definition shape (a : ndarray) : list nat := [List.length a].

Definition shape_eqb (s1 s2 : list nat) : bool :=
  if list_eq_dec Nat.eq_dec s1 s2 then true else false.

(** [np.arange(start, stop, step)]: the half-open interval [start, stop)
    sampled every [step]; numpy documents the length as
    ceil((stop - start) / step) and the i-th sample as start + i * step.
    The quotient is exact here.  numpy rounds it to a float before taking
    the ceiling, which can change the length by one when the exact quotient
    is within rounding of a whole number: the sample at the stop value
    itself may then be kept, or the last sample below it dropped. *)
Definition arange (start stop step : R) : ndarray :=
  let n := Z.to_nat (Zceil ((stop - start) / step)) in
  map (fun i : nat => start + INR i * step) (seq 0 n).

(** [np.zeros((rows, cols))] *)
Definition zeros (rows cols : nat) : list ndarray :=
  repeat (repeat 0 cols) rows.

(** Element-wise [a + b] of two arrays of one shape, and [c * a] for a
    scalar [c]. *)
Fixpoint vadd (a b : ndarray) : ndarray :=
  match a, b with
  | x :: a', y :: b' => (x + y) :: vadd a' b'
  | _, _ => []
  end.

Definition vscale (c : R) (a : ndarray) : ndarray := map (Rmult c) a.

Infix "+v" := vadd (at level 50, left associativity) : pendulum_scope.
Infix "*v" := vscale (at level 40, left associativity) : pendulum_scope.

(** [Y[i, :]] *)
Definition getrow (Y : list ndarray) (i : nat) : exn + ndarray :=
  match nth_error Y i with
  | Some row => inr row
  | None => inl (IndexError "index out of bounds")
  end.

(** [Y[i, :] = row] *)
Fixpoint setrow (Y : list ndarray) (i : nat) (row : ndarray)
  : exn + list ndarray :=
  match Y, i with
  | [], _ => inl (IndexError "index out of bounds")
  | _ :: Y', O => inr (row :: Y')
  | r :: Y', S i' =>
      match setrow Y' i' row with
      | inr Y'' => inr (r :: Y'')
      | inl e => inl e
      end
  end.

(** ** Strings *)

Definition is_upper (c : ascii) : bool :=
  ((65 <=? nat_of_ascii c) && (nat_of_ascii c <=? 90))%nat.

Definition lower_char (c : ascii) : ascii :=
  if is_upper c then ascii_of_nat (nat_of_ascii c + 32) else c.

(** The three bytes of U+212A KELVIN SIGN in UTF-8. *)
Definition is_kelvin (c1 c2 c3 : ascii) : bool :=
  Ascii.eqb c1 "226" && Ascii.eqb c2 "132" && Ascii.eqb c3 "170".

Definition kelvin : string :=
  String "226" (String "132" (String "170" EmptyString)).

(** [s.lower()].  ASCII capitals become small letters and KELVIN SIGN
    becomes "k".  The other characters are copied: [str.lower] may change
    them, but never into "r", "k" or "4", so the comparison with "rk4", the
    only use the program makes of the result, is decided as in Python. *)
Fixpoint lower (s : string) : string :=
  match s with
  | EmptyString => EmptyString
  | String c s1 =>
      match s1 with
      | String c2 (String c3 s3) =>
          if is_kelvin c c2 c3 then String "k" (lower s3)
          else String (lower_char c) (lower s1)
      | _ => String (lower_char c) (lower s1)
      end
  end.

(** ** The class [DoublePendulum] *)

Record DoublePendulum : Type := mkDoublePendulum {
  L1 : R;   (* length of the first link  *)
  L2 : R;   (* length of the second link *)
  m1 : R;   (* mass of the first bob     *)
  m2 : R;   (* mass of the second bob    *)
  g : R     (* gravitational acceleration *)
}.

(** Default of the keyword argument [g]. *)
Definition g_default : R := 9.81.

(** [DoublePendulum.__init__(self, L1, L2, m1, m2, g)] *)
Definition __init__ (L1 L2 m1 m2 g : R) : exn + DoublePendulum :=
  if Rleb L1 0 || Rleb L2 0 then
    inl (ValueError "Длины маятников L1 и L2 должны быть положительными числами.")
  else if Rleb m1 0 || Rleb m2 0 then
    inl (ValueError "Массы maятников m1 и m2 должны быть положительными числами.")
  else
    inr (mkDoublePendulum L1 L2 m1 m2 g).

(** [DoublePendulum.derivatives(self, state)] *)
Definition derivatives (self : DoublePendulum) (state : ndarray)
  : exn + ndarray :=
  match state with
  | [theta1; theta2; omega1; omega2] =>
      let Δ := theta1 - theta2 in
      let sinΔ := sin Δ in
      let cosΔ := cos Δ in
      let denom1 := L1 self * (m1 self + m2 self * sinΔ * sinΔ) in
      let denom2 := L2 self * (m1 self + m2 self * sinΔ * sinΔ) in
      let eps := 1e-8 in
      if Rltb (Rabs denom1) eps || Rltb (Rabs denom2) eps then
        let alpha1 := 0.0 in
        let alpha2 := 0.0 in
        inr [omega1; omega2; alpha1; alpha2]
      else
        let num1 := m2 self * g self * sin theta2 * cosΔ
                    - m2 self * sinΔ
                      * (L1 self * omega1 ^ 2 * cosΔ + L2 self * omega2 ^ 2)
                    - (m1 self + m2 self) * g self * sin theta1 in
        let alpha1 := num1 / denom1 in
        let num2 := (m1 self + m2 self)
                    * (L1 self * omega1 ^ 2 * sinΔ
                       - g self * sin theta2
                       + g self * sin theta1 * cosΔ)
                    + m2 self * L2 self * omega2 ^ 2 * sinΔ * cosΔ in
        let alpha2 := num2 / denom2 in
        inr [omega1; omega2; alpha1; alpha2]
  | _ :: _ :: _ :: _ :: _ :: _ =>
      inl (ValueError "too many values to unpack (expected 4)")
  | _ => inl (ValueError "not enough values to unpack (expected 4)")
  end.

(** The call [self.derivatives(state)] as [integrate] performs it. *)
Definition call_derivatives (self : DoublePendulum) (state : ndarray)
  : M ndarray :=
  emit (ev_derivatives state) ;; lift (derivatives self state).

(** The assignment [Y[i, :] = row] as [integrate] performs it. *)
Definition store (Y : list ndarray) (i : nat) (row : ndarray)
  : M (list ndarray) :=
  Y' <- lift (setrow Y i row) ;; emit (ev_setrow i) ;; ret Y'.

(** Body of the loop of [integrate] for the index [i]. *)
Definition rk4_body (self : DoublePendulum) (dt : R) (i : nat)
  (Y : list ndarray) : M (list ndarray) :=
  let dt_i := dt in
  yi <- lift (getrow Y i) ;;
  k1 <- call_derivatives self yi ;;
  k2 <- call_derivatives self (yi +v 0.5 * dt_i *v k1) ;;
  k3 <- call_derivatives self (yi +v 0.5 * dt_i *v k2) ;;
  k4 <- call_derivatives self (yi +v dt_i *v k3) ;;
  store Y (i + 1) (yi +v (dt_i / 6.0) *v (k1 +v 2 *v k2 +v 2 *v k3 +v k4)).

(** [DoublePendulum.integrate(self, y0, t_max, dt, method)] *)
Definition integrate (self : DoublePendulum) (y0 : ndarray) (t_max dt : R)
  (method : string) : M (ndarray * list ndarray) :=
  if Rleb dt 0 then
    raise (ValueError "Шаг dt должен быть положительным числом.")
  else if Rleb t_max 0 then
    raise (ValueError "t_max должно быть положительным числом.")
  else if negb (shape_eqb (shape y0) [4%nat]) then
    raise (ValueError
      "Начальный вектор y0 должен быть размерности (4,) — [θ1, θ2, ω1, ω2].")
  else
    let t := arange 0.0 (t_max + dt / 2) dt in
    emit (ev_arange (List.length t)) ;;
    let N := List.length t in
    let Y := zeros N 4 in
    emit (ev_zeros N 4) ;;
    Y <- store Y 0 y0 ;;
    if String.eqb (lower method) "rk4" then
      Y <- for_each (seq 0 (N - 1)) (rk4_body self dt) Y ;;
      ret (t, Y)
    else
      raise (NotImplementedError
        ("Метод интегрирования '" ++ method
         ++ "' не реализован. Только 'rk4'.")).

(** ** The specification's wording *)

(** One step of the classical fourth-order Runge-Kutta scheme, as the
    specification writes it: [ynext] is the update of [yi]. *)
Definition rk4_update_spec (self : DoublePendulum) (dt : R)
  (yi ynext : ndarray) : Prop :=
  exists k1 k2 k3 k4 : ndarray,
    derivatives self yi = inr k1 /\
    derivatives self (yi +v (dt / 2) *v k1) = inr k2 /\
    derivatives self (yi +v (dt / 2) *v k2) = inr k3 /\
    derivatives self (yi +v dt *v k3) = inr k4 /\
    ynext = yi +v (dt / 6) *v (k1 +v 2 *v k2 +v 2 *v k3 +v k4).

(** The rows of [Y] are chained by the update. *)
Definition rk4_trajectory (self : DoublePendulum) (dt : R)
  (Y : list ndarray) : Prop :=
  forall i : nat, (i + 1 < List.length Y)%nat ->
    exists yi ynext : ndarray,
      nth_error Y i = Some yi /\ nth_error Y (i + 1) = Some ynext /\
      rk4_update_spec self dt yi ynext.



Definition is_ev_derivatives (ev : event) : bool :=
  match ev with
  | ev_derivatives _ => true
  | _ => false
  end.

(** The three argument checks of [integrate] all pass. *)
Definition valid_args (y0 : ndarray) (t_max dt : R) : Prop :=
  0 < dt /\ 0 < t_max /\ shape y0 = [4%nat].

(** The spellings of the method name whose lower case is "rk4": the four
    in ASCII and the two written with KELVIN SIGN. *)
Definition rk4_spellings : list string :=
  ["rk4"; "rK4"; "Rk4"; "RK4";
   "r" ++ kelvin ++ "4"; "R" ++ kelvin ++ "4"]%string.

(** The message of the exception for an unknown method. *)
Definition unsupported_message (method : string) : string :=
  ("Метод интегрирования '" ++ method ++ "' не реализован. Только 'rk4'.")%string.

(** A model and an initial state used in the examples below: the parameters
    of the demonstration at the end of [pendulum.py]. *)
Definition pend_demo : DoublePendulum := mkDoublePendulum 2.0 2.0 1.0 3.0 9.81.
Definition y0_demo : ndarray := [PI / 2; PI / 2; 3.0; 0.0].

(** The closed forms of the specification for the two angular
    accelerations: the coupled-inertia denominators and the numerators. *)
Section ClosedForms.
Variable self : DoublePendulum.
Variables theta1 theta2 omega1 omega2 : R.

Definition denom1_spec : R :=
  L1 self * (m1 self + m2 self * (sin (theta1 - theta2)) ^ 2).

Definition denom2_spec : R :=
  L2 self * (m1 self + m2 self * (sin (theta1 - theta2)) ^ 2).

Definition num1_spec : R :=
  m2 self * g self * sin theta2 * cos (theta1 - theta2)
  - m2 self * sin (theta1 - theta2)
    * (L1 self * omega1 ^ 2 * cos (theta1 - theta2) + L2 self * omega2 ^ 2)
  - (m1 self + m2 self) * g self * sin theta1.

Definition num2_spec : R :=
  (m1 self + m2 self)
  * (L1 self * omega1 ^ 2 * sin (theta1 - theta2)
     - g self * sin theta2
     + g self * sin theta1 * cos (theta1 - theta2))
  + m2 self * L2 self * omega2 ^ 2
    * sin (theta1 - theta2) * cos (theta1 - theta2).

(** The degeneracy guard fires. *)
Definition degenerate : Prop :=
  Rabs denom1_spec < 1e-8 \/ Rabs denom2_spec < 1e-8.
End ClosedForms.

(** Every row of [Y] has the four columns of a state. *)
Definition rows4 (Y : list ndarray) : Prop :=
  forall (j : nat) (row : ndarray),
    nth_error Y j = Some row -> List.length row = 4%nat.

(** ** Measures on the log of a call *)

Definition is_ev_setrow (ev : event) : bool :=
  match ev with
  | ev_setrow _ => true
  | _ => false
  end.

(** Number of evaluations of [derivatives] recorded in a log. *)
Definition count_derivatives (log : list event) : nat :=
  List.length (filter is_ev_derivatives log).

(** Number of row assignments recorded in a log. *)
Definition count_setrow (log : list event) : nat :=
  List.length (filter is_ev_setrow log).

(** Element-wise [-a]. *)
Definition vneg (a : ndarray) : ndarray := map Ropp a.

(** ** The display of a trajectory: [gui.py] and [visualization.py]

    Only what these functions compute is modelled: the data handed to
    matplotlib (axis limits, frames, curves).  Widgets, windows and files
    are left out. *)

(** Sequencing of calls that may raise but leave no log. *)
Definition and_then {A B : Type} (r : exn + A) (k : A -> exn + B)
  : exn + B :=
  match r with
  | inl e => inl e
  | inr a => k a
  end.

(** [Y[i, j]] *)
Definition getitem2 (Y : list ndarray) (i j : nat) : exn + R :=
  match nth_error Y i with
  | None => inl (IndexError "index out of bounds for axis 0")
  | Some row =>
      match nth_error row j with
      | None => inl (IndexError "index out of bounds for axis 1")
      | Some x => inr x
      end
  end.

(** [Y[:, j]] *)
Fixpoint column (Y : list ndarray) (j : nat) : exn + ndarray :=
  match Y with
  | [] => inr []
  | row :: Y' =>
      match nth_error row j with
      | None => inl (IndexError "index out of bounds for axis 1")
      | Some x => and_then (column Y' j) (fun c => inr (x :: c))
      end
  end.

(** [np.min(a)] and [np.max(a)] *)
Definition np_min (a : ndarray) : exn + R :=
  match a with
  | [] => inl (ValueError
      "zero-size array to reduction operation minimum which has no identity")
  | x :: a' => inr (fold_left Rmin a' x)
  end.

Definition np_max (a : ndarray) : exn + R :=
  match a with
  | [] => inl (ValueError
      "zero-size array to reduction operation maximum which has no identity")
  | x :: a' => inr (fold_left Rmax a' x)
  end.

Definition Rneb (x y : R) : bool := if Req_dec_T x y then false else true.

(** [int(x)]: truncation towards zero. *)
Definition py_int (x : R) : Z := if Rleb 0 x then Zfloor x else Zceil x.

(** The frame function [animate_frame(i)] of [run_simulation], which is
    also [animate(i)] of [animate_double_pendulum]: the two arguments of
    [line.set_data]. *)
Definition animate_frame (Y : list ndarray) (L1 L2 : R) (i : nat)
  : exn + (list R * list R) :=
  and_then (getitem2 Y i 0) (fun theta1_i =>
  and_then (getitem2 Y i 1) (fun theta2_i =>
    let x1 := L1 * sin theta1_i in
    let y1 := - L1 * cos theta1_i in
    let x2 := x1 + L2 * sin theta2_i in
    let y2 := y1 - L2 * cos theta2_i in
    inr ([0; x1; x2], [0; y1; y2]))).

(** The value of [xlim] and of [ylim] given to [add_subplot]. *)
Definition axes_limits (L1 L2 : R) : R * R :=
  (- (L1 + L2) * 1.1, (L1 + L2) * 1.1).

(** What [FuncAnimation] is built from. *)
Record animation : Type := mkAnimation {
  ani_xlim : R * R;
  ani_ylim : R * R;
  ani_frames : nat;                              (* frames=len(t)  *)
  ani_interval : Z;                              (* interval, ms   *)
  ani_draw : nat -> exn + (list R * list R)      (* frame function *)
}.

(** What [run_simulation] stores in the window. *)
Record simulation : Type := mkSimulation {
  sim_t : ndarray;
  sim_Y : list ndarray;
  sim_ani : animation
}.

(** [PendulumWindow.run_simulation(self)], given the values read from the
    ten spin boxes. *)
Definition run_simulation (L1 L2 m1 m2 theta1_0 theta2_0 omega1_0 omega2_0
                           t_max dt : R) : M simulation :=
  pend <- lift (__init__ L1 L2 m1 m2 g_default) ;;
  let y0 := [theta1_0; theta2_0; omega1_0; omega2_0] in
  emit (ev_array y0) ;;
  r <- integrate pend y0 t_max dt "rk4" ;;
  let t := fst r in
  let Y := snd r in
  ret (mkSimulation t Y
         (mkAnimation (axes_limits L1 L2) (axes_limits L1 L2)
            (List.length t) (py_int (1000 * dt)) (animate_frame Y L1 L2))).

(** What [plot_theta1_vs_theta2] hands to the axes: the two limits and the
    scattered points with their colour indices. *)
Record scatter_axes : Type := mkScatter {
  sc_xlim : R * R;
  sc_ylim : R * R;
  sc_x : ndarray;
  sc_y : ndarray;
  sc_c : list nat
}.

(** [plot_theta1_vs_theta2(theta1, theta2)] *)
Definition plot_theta1_vs_theta2 (theta1 theta2 : ndarray)
  : exn + scatter_axes :=
  if negb (shape_eqb (shape theta1) (shape theta2)) then
    inl (ValueError "Массивы theta1 и theta2 должны иметь одинаковую форму.")
  else
    and_then (np_min theta1) (fun min_t1 =>
    and_then (np_max theta1) (fun max_t1 =>
    and_then (np_min theta2) (fun min_t2 =>
    and_then (np_max theta2) (fun max_t2 =>
      let pad_t1 :=
        if Rneb max_t1 min_t1 then (max_t1 - min_t1) * 0.05 else 0.1 in
      let pad_t2 :=
        if Rneb max_t2 min_t2 then (max_t2 - min_t2) * 0.05 else 0.1 in
      let N := List.length theta1 in
      inr (mkScatter (min_t1 - pad_t1, max_t1 + pad_t1)
             (min_t2 - pad_t2, max_t2 + pad_t2)
             theta1 theta2 (seq 0 N)))))).

(** [plot_phase_angles_vs_omega(theta1, omega1, theta2, omega2)]: the two
    curves given to [ax.plot]. *)
Definition plot_phase_angles_vs_omega (theta1 omega1 theta2 omega2 : ndarray)
  : exn + list (ndarray * ndarray) :=
  if negb (shape_eqb (shape theta1) (shape omega1)
           && shape_eqb (shape omega1) (shape theta2)
           && shape_eqb (shape theta2) (shape omega2)) then
    inl (ValueError "Все входные массивы должны иметь одинаковую форму.")
  else
    inr [(theta1, omega1); (theta2, omega2)].

(** [plot_omega1_vs_omega2(omega1, omega2)]: the curve given to
    [ax.plot]. *)
Definition plot_omega1_vs_omega2 (omega1 omega2 : ndarray)
  : exn + list (ndarray * ndarray) :=
  if negb (shape_eqb (shape omega1) (shape omega2)) then
    inl (ValueError "Массивы omega1 и omega2 должны иметь одинаковую форму.")
  else
    inr [(omega1, omega2)].

(** The three handlers of the plot buttons, given the attribute [self.Y]
    ([None] before the first run). *)
Definition show_plot_theta1_theta2 (Y : option (list ndarray))
  : exn + option scatter_axes :=
  match Y with
  | None => inr None
  | Some Y =>
      and_then (column Y 0) (fun theta1 =>
      and_then (column Y 1) (fun theta2 =>
      and_then (plot_theta1_vs_theta2 theta1 theta2) (fun ax =>
        inr (Some ax))))
  end.

Definition show_plot_angles_vs_omega (Y : option (list ndarray))
  : exn + option (list (ndarray * ndarray)) :=
  match Y with
  | None => inr None
  | Some Y =>
      and_then (column Y 0) (fun theta1 =>
      and_then (column Y 2) (fun omega1 =>
      and_then (column Y 1) (fun theta2 =>
      and_then (column Y 3) (fun omega2 =>
      and_then (plot_phase_angles_vs_omega theta1 omega1 theta2 omega2)
        (fun curves => inr (Some curves))))))
  end.

Definition show_plot_omega1_omega2 (Y : option (list ndarray))
  : exn + option (list (ndarray * ndarray)) :=
  match Y with
  | None => inr None
  | Some Y =>
      and_then (column Y 2) (fun omega1 =>
      and_then (column Y 3) (fun omega2 =>
      and_then (plot_omega1_vs_omega2 omega1 omega2) (fun curves =>
        inr (Some curves))))
  end.

(** ** [pendulum.py] on arrays that may hold NaN

    A component is a finite number or NaN.  NaN is absorbing for the
    arithmetic and for [np.sin] and [np.cos], and every comparison with NaN
    is false; finite numbers are handled as above.  The scalars [dt] and
    [t_max] and the parameters of the model stay finite.  The functions
    below follow the source line by line, like their counterparts on
    [ndarray]; they keep the value of a call and not its log. *)

Inductive pyfloat : Type :=
| Fin (r : R)
| NaN.

Definition lift1 (f : R -> R) (a : pyfloat) : pyfloat :=
  match a with
  | Fin x => Fin (f x)
  | NaN => NaN
  end.

Definition lift2 (f : R -> R -> R) (a b : pyfloat) : pyfloat :=
  match a, b with
  | Fin x, Fin y => Fin (f x y)
  | _, _ => NaN
  end.

Definition fadd : pyfloat -> pyfloat -> pyfloat := lift2 Rplus.
Definition fsub : pyfloat -> pyfloat -> pyfloat := lift2 Rminus.
Definition fmul : pyfloat -> pyfloat -> pyfloat := lift2 Rmult.
Definition fdiv : pyfloat -> pyfloat -> pyfloat := lift2 Rdiv.
Definition fsin : pyfloat -> pyfloat := lift1 sin.
Definition fcos : pyfloat -> pyfloat := lift1 cos.
Definition fabs : pyfloat -> pyfloat := lift1 Rabs.
(** [a ** 2] *)
Definition fsqr : pyfloat -> pyfloat := lift1 (fun x => x ^ 2).

(** [a < b] *)
Definition fltb (a b : pyfloat) : bool :=
  match a, b with
  | Fin x, Fin y => Rltb x y
  | _, _ => false
  end.

Declare Scope nan_scope.
Delimit Scope nan_scope with nan.
Infix "+f" := fadd (at level 50, left associativity) : nan_scope.
Infix "-f" := fsub (at level 50, left associativity) : nan_scope.
Infix "*f" := fmul (at level 40, left associativity) : nan_scope.
Infix "/f" := fdiv (at level 40, left associativity) : nan_scope.
Local Open Scope nan_scope.

Definition ndarray_nan : Type := list pyfloat.

Definition shape_nan (a : ndarray_nan) : list nat := [List.length a].

(** The array holds finite numbers only. *)
Definition all_finite (a : ndarray_nan) : Prop :=
  exists r : ndarray, a = map Fin r.

Definition zeros_nan (rows cols : nat) : list ndarray_nan :=
  repeat (repeat (Fin 0) cols) rows.

Fixpoint vadd_nan (a b : ndarray_nan) : ndarray_nan :=
  match a, b with
  | x :: a', y :: b' => (x +f y) :: vadd_nan a' b'
  | _, _ => []
  end.

Definition vscale_nan (c : R) (a : ndarray_nan) : ndarray_nan :=
  map (fmul (Fin c)) a.

Definition getrow_nan (Y : list ndarray_nan) (i : nat) : exn + ndarray_nan :=
  match nth_error Y i with
  | Some row => inr row
  | None => inl (IndexError "index out of bounds")
  end.

Fixpoint setrow_nan (Y : list ndarray_nan) (i : nat) (row : ndarray_nan)
  : exn + list ndarray_nan :=
  match Y, i with
  | [], _ => inl (IndexError "index out of bounds")
  | _ :: Y', O => inr (row :: Y')
  | r :: Y', S i' =>
      match setrow_nan Y' i' row with
      | inr Y'' => inr (r :: Y'')
      | inl e => inl e
      end
  end.

(** [DoublePendulum.derivatives(self, state)] *)
Definition derivatives_nan (self : DoublePendulum) (state : ndarray_nan)
  : exn + ndarray_nan :=
  match state with
  | [theta1; theta2; omega1; omega2] =>
      let Δ := theta1 -f theta2 in
      let sinΔ := fsin Δ in
      let cosΔ := fcos Δ in
      let denom1 :=
        Fin (L1 self) *f (Fin (m1 self) +f Fin (m2 self) *f sinΔ *f sinΔ) in
      let denom2 :=
        Fin (L2 self) *f (Fin (m1 self) +f Fin (m2 self) *f sinΔ *f sinΔ) in
      let eps := Fin 1e-8 in
      if fltb (fabs denom1) eps || fltb (fabs denom2) eps then
        let alpha1 := Fin 0.0 in
        let alpha2 := Fin 0.0 in
        inr [omega1; omega2; alpha1; alpha2]
      else
        let num1 := Fin (m2 self) *f Fin (g self) *f fsin theta2 *f cosΔ
                    -f Fin (m2 self) *f sinΔ
                       *f (Fin (L1 self) *f fsqr omega1 *f cosΔ
                           +f Fin (L2 self) *f fsqr omega2)
                    -f (Fin (m1 self) +f Fin (m2 self)) *f Fin (g self)
                       *f fsin theta1 in
        let alpha1 := num1 /f denom1 in
        let num2 := (Fin (m1 self) +f Fin (m2 self))
                    *f (Fin (L1 self) *f fsqr omega1 *f sinΔ
                        -f Fin (g self) *f fsin theta2
                        +f Fin (g self) *f fsin theta1 *f cosΔ)
                    +f Fin (m2 self) *f Fin (L2 self) *f fsqr omega2
                       *f sinΔ *f cosΔ in
        let alpha2 := num2 /f denom2 in
        inr [omega1; omega2; alpha1; alpha2]
  | _ :: _ :: _ :: _ :: _ :: _ =>
      inl (ValueError "too many values to unpack (expected 4)")
  | _ => inl (ValueError "not enough values to unpack (expected 4)")
  end.

(** Body of the loop of [integrate] for the index [i]. *)
Definition rk4_body_nan (self : DoublePendulum) (dt : R) (i : nat)
  (Y : list ndarray_nan) : exn + list ndarray_nan :=
  let dt_i := dt in
  and_then (getrow_nan Y i) (fun yi =>
  and_then (derivatives_nan self yi) (fun k1 =>
  and_then (derivatives_nan self
              (vadd_nan yi (vscale_nan (0.5 * dt_i) k1))) (fun k2 =>
  and_then (derivatives_nan self
              (vadd_nan yi (vscale_nan (0.5 * dt_i) k2))) (fun k3 =>
  and_then (derivatives_nan self
              (vadd_nan yi (vscale_nan dt_i k3))) (fun k4 =>
  setrow_nan Y (i + 1)
    (vadd_nan yi
       (vscale_nan (dt_i / 6.0)
          (vadd_nan (vadd_nan (vadd_nan k1 (vscale_nan 2 k2))
                       (vscale_nan 2 k3)) k4)))))))).

Fixpoint for_each_nan {X S : Type} (xs : list X) (body : X -> S -> exn + S)
  (s : S) : exn + S :=
  match xs with
  | [] => inr s
  | x :: xs' => and_then (body x s) (for_each_nan xs' body)
  end.

(** [DoublePendulum.integrate(self, y0, t_max, dt, method)] *)
Definition integrate_nan (self : DoublePendulum) (y0 : ndarray_nan)
  (t_max dt : R) (method : string) : exn + (ndarray * list ndarray_nan) :=
  if Rleb dt 0 then
    inl (ValueError "Шаг dt должен быть положительным числом.")
  else if Rleb t_max 0 then
    inl (ValueError "t_max должно быть положительным числом.")
  else if negb (shape_eqb (shape_nan y0) [4%nat]) then
    inl (ValueError
      "Начальный вектор y0 должен быть размерности (4,) — [θ1, θ2, ω1, ω2].")
  else
    let t := arange 0.0 (t_max + dt / 2) dt in
    let N := List.length t in
    let Y := zeros_nan N 4 in
    and_then (setrow_nan Y 0 y0) (fun Y =>
    if String.eqb (lower method) "rk4" then
      and_then (for_each_nan (seq 0 (N - 1)) (rk4_body_nan self dt) Y)
        (fun Y => inr (t, Y))
    else
      inl (NotImplementedError
        ("Метод интегрирования '" ++ method
         ++ "' не реализован. Только 'rk4'."))).

(** The claim on the arguments of [integrate], as the specification words
    it: the call is rejected exactly when [y0] is not made of four finite
    numbers, or [dt <= 0], or [t_max <= 0]. *)
Definition rejects_non_finite (self : DoublePendulum) (y0 : ndarray_nan)
  (t_max dt : R) (method : string) : Prop :=
  (exists msg : string,
     integrate_nan self y0 t_max dt method = inl (ValueError msg))
  <-> (~ (List.length y0 = 4%nat /\ all_finite y0) \/ dt <= 0 \/ t_max <= 0).

(** A result on finite arrays, read as a result on arrays that may hold
    NaN. *)
Definition lift_rows (r : exn + list ndarray) : exn + list ndarray_nan :=
  match r with
  | inl e => inl e
  | inr Y => inr (map (map Fin) Y)
  end.

(** Every row has the four columns of a state. *)
Definition rows4_nan (Y : list ndarray_nan) : Prop :=
  forall (j : nat) (row : ndarray_nan),
    nth_error Y j = Some row -> List.length row = 4%nat.

(** * Properties *)

(** ** The monad *)

Lemma result_bind_inr {A B : Type} (c : M A) (k : A -> M B) (a : A) :
  result_of c = inr a -> result_of (bind c k) = result_of (k a).
Proof. destruct c as [log [e|x]]; simpl; intros H; inversion H; reflexivity. Qed.

Lemma result_bind_inl {A B : Type} (c : M A) (k : A -> M B) (e : exn) :
  result_of c = inl e -> result_of (bind c k) = inl e.
Proof. destruct c as [log [e'|x]]; simpl; intros H; inversion H; reflexivity. Qed.

Lemma log_bind_inr {A B : Type} (c : M A) (k : A -> M B) (a : A) :
  result_of c = inr a -> log_of (bind c k) = log_of c ++ log_of (k a).
Proof. destruct c as [log [e|x]]; simpl; intros H; inversion H; reflexivity. Qed.

Lemma log_bind_inl {A B : Type} (c : M A) (k : A -> M B) (e : exn) :
  result_of c = inl e -> log_of (bind c k) = log_of c.
Proof. destruct c as [log [e'|x]]; simpl; intros H; inversion H; reflexivity. Qed.

Lemma result_call_derivatives (self : DoublePendulum) (state : ndarray) :
  result_of (call_derivatives self state) = derivatives self state.
Proof. reflexivity. Qed.

Lemma result_store (Y : list ndarray) (i : nat) (row : ndarray) :
  result_of (store Y i row) = setrow Y i row.
Proof. unfold store; destruct (setrow Y i row); reflexivity. Qed.

(** ** Comparisons *)

Lemma Rltb_true (x y : R) : Rltb x y = true <-> x < y.
Proof. unfold Rltb; destruct (Rlt_dec x y); split; intros; congruence || assumption || reflexivity. Qed.

Lemma Rltb_false (x y : R) : Rltb x y = false <-> y <= x.
Proof.
  unfold Rltb; destruct (Rlt_dec x y); split; intros; try congruence; try lra.
Qed.

Lemma Rleb_true (x y : R) : Rleb x y = true <-> x <= y.
Proof. unfold Rleb; destruct (Rle_dec x y); split; intros; congruence || assumption || reflexivity. Qed.

Lemma Rleb_false (x y : R) : Rleb x y = false <-> y < x.
Proof.
  unfold Rleb; destruct (Rle_dec x y); split; intros; try congruence; try lra.
Qed.

Lemma shape_eqb_true (s1 s2 : list nat) : shape_eqb s1 s2 = true <-> s1 = s2.
Proof.
  unfold shape_eqb; destruct (list_eq_dec Nat.eq_dec s1 s2); split; intros;
    congruence.
Qed.

(** ** Arrays *)

Lemma vadd_length (a b : ndarray) :
  List.length a = List.length b -> List.length (a +v b) = List.length a.
Proof.
  revert b; induction a as [|x a IH]; intros [|y b] H; simpl in *;
    try discriminate; auto.
Qed.

Lemma vscale_length (c : R) (a : ndarray) :
  List.length (c *v a) = List.length a.
Proof. apply length_map. Qed.

Lemma vscale_ext (c c' : R) (a : ndarray) : c = c' -> c *v a = c' *v a.
Proof. intros ->; reflexivity. Qed.

Lemma setrow_ok (Y : list ndarray) (i : nat) (row : ndarray) :
  (i < List.length Y)%nat ->
  exists Y', setrow Y i row = inr Y' /\
    List.length Y' = List.length Y /\
    nth_error Y' i = Some row /\
    (forall j, j <> i -> nth_error Y' j = nth_error Y j).
Proof.
  revert i; induction Y as [|r Y IH]; intros i Hi; simpl in Hi; [lia|].
  destruct i as [|i].
  - exists (row :: Y); simpl; repeat split; auto.
    intros [|j] Hj; [congruence | reflexivity].
  - destruct (IH i ltac:(lia)) as (Y' & E & Hl & Hn & Ho).
    exists (r :: Y'); simpl; rewrite E; repeat split; auto.
    intros [|j] Hj; simpl; auto.
Qed.

Lemma setrow_error (Y : list ndarray) (i : nat) (row : ndarray) (e : exn) :
  setrow Y i row = inl e -> (List.length Y <= i)%nat.
Proof.
  intros H; destruct (Nat.lt_ge_cases i (List.length Y)) as [Hlt|]; auto.
  destruct (setrow_ok Y i row Hlt) as (Y' & E & _); congruence.
Qed.

Lemma zeros_length (rows cols : nat) : List.length (zeros rows cols) = rows.
Proof. apply repeat_length. Qed.

Lemma zeros_row (rows cols j : nat) (row : ndarray) :
  nth_error (zeros rows cols) j = Some row -> List.length row = cols.
Proof.
  intros H; apply nth_error_In, repeat_spec in H; subst; apply repeat_length.
Qed.

(** ** The grid *)

Lemma arange_length (start stop step : R) :
  List.length (arange start stop step)
  = Z.to_nat (Zceil ((stop - start) / step)).
Proof. unfold arange; now rewrite length_map, length_seq. Qed.

Lemma arange_nth (start stop step : R) (i : nat) :
  (i < List.length (arange start stop step))%nat ->
  nth_error (arange start stop step) i = Some (start + INR i * step).
Proof.
  rewrite arange_length; intros Hi; unfold arange.
  rewrite nth_error_map, nth_error_seq.
  destruct (Nat.ltb_spec i (Z.to_nat (Zceil ((stop - start) / step))));
    [reflexivity | lia].
Qed.

Lemma arange_index (stop step : R) (i : nat) :
  0 < step ->
  (i < List.length (arange 0.0 stop step))%nat <-> INR i * step < stop.
Proof.
  intros Hstep; rewrite arange_length.
  replace (stop - 0.0) with stop by lra.
  pose proof (Zceil_bound (stop / step)) as [Hlo Hhi].
  rewrite INR_IZR_INZ; split; intros H.
  - assert (Hz : (Z.of_nat i <= Zceil (stop / step) - 1)%Z) by lia.
    apply IZR_le in Hz; rewrite minus_IZR in Hz.
    apply Rmult_lt_reg_r with (/ step); [now apply Rinv_0_lt_compat|].
    replace (IZR (Z.of_nat i) * step * / step) with (IZR (Z.of_nat i))
      by (field; lra).
    unfold Rdiv in Hlo; lra.
  - assert (Hx : IZR (Z.of_nat i) < stop / step).
    { apply Rmult_lt_reg_r with step; [assumption|].
      replace (stop / step * step) with stop by (field; lra); assumption. }
    assert (Hz : (Z.of_nat i < Zceil (stop / step))%Z) by (apply lt_IZR; lra).
    lia.
Qed.

Lemma grid_nonempty (t_max dt : R) :
  0 < dt -> 0 < t_max ->
  (0 < List.length (arange 0.0 (t_max + dt / 2) dt))%nat.
Proof.
  intros Hdt Ht; apply arange_index; [assumption | simpl; lra].
Qed.

Lemma grid_sample (t_max dt : R) (i : nat) :
  (i < List.length (arange 0.0 (t_max + dt / 2) dt))%nat ->
  nth_error (arange 0.0 (t_max + dt / 2) dt) i = Some (INR i * dt).
Proof.
  intros Hi; rewrite arange_nth by assumption; f_equal; lra.
Qed.

(** ** Evaluation of [derivatives] *)

Lemma derivatives_length (self : DoublePendulum) (state : ndarray) :
  List.length state = 4%nat ->
  exists d, derivatives self state = inr d /\ List.length d = 4%nat.
Proof.
  destruct state as [|a [|b [|c [|d [|e s]]]]]; simpl; try discriminate.
  intros _; cbv zeta.
  match goal with |- context [if ?b then _ else _] => destruct b end;
    eexists; split; reflexivity.
Qed.

(** ** The integration loop *)

Lemma rk4_body_ok (self : DoublePendulum) (dt : R) (i : nat)
  (Y : list ndarray) (yi : ndarray) :
  nth_error Y i = Some yi -> List.length yi = 4%nat ->
  (i + 1 < List.length Y)%nat ->
  exists (ynext : ndarray) (Y' : list ndarray),
    result_of (rk4_body self dt i Y) = inr Y' /\
    setrow Y (i + 1) ynext = inr Y' /\
    rk4_update_spec self dt yi ynext /\
    List.length ynext = 4%nat.
Proof.
  intros Hi Hlen Hnext.
  destruct (derivatives_length self yi Hlen) as (k1 & E1 & Hk1).
  assert (Hs : forall (c : R) (k : ndarray), List.length k = 4%nat ->
             List.length (yi +v c *v k) = 4%nat).
  { intros c k Hk; rewrite vadd_length; rewrite ?vscale_length; congruence. }
  destruct (derivatives_length self _ (Hs (0.5 * dt) k1 Hk1)) as (k2 & E2 & Hk2).
  destruct (derivatives_length self _ (Hs (0.5 * dt) k2 Hk2)) as (k3 & E3 & Hk3).
  destruct (derivatives_length self _ (Hs dt k3 Hk3)) as (k4 & E4 & Hk4).
  set (ynext := yi +v (dt / 6.0) *v (k1 +v 2 *v k2 +v 2 *v k3 +v k4)).
  assert (Hyn : List.length ynext = 4%nat).
  { apply Hs; repeat (rewrite vadd_length; rewrite ?vscale_length);
      congruence. }
  destruct (setrow_ok Y (i + 1) ynext Hnext) as (Y' & ES & _).
  exists ynext, Y'; repeat split; auto.
  - unfold rk4_body.
    rewrite (result_bind_inr _ _ yi) by (unfold getrow; now rewrite Hi).
    rewrite (result_bind_inr _ _ k1) by exact E1.
    rewrite (result_bind_inr _ _ k2) by exact E2.
    rewrite (result_bind_inr _ _ k3) by exact E3.
    rewrite (result_bind_inr _ _ k4) by exact E4.
    rewrite result_store; exact ES.
  - exists k1, k2, k3, k4.
    replace (dt / 2) with (0.5 * dt) by lra.
    replace (dt / 6) with (dt / 6.0) by lra.
    repeat split; assumption || reflexivity.
Qed.

Lemma rk4_loop_ok (self : DoublePendulum) (dt : R) (n : nat) :
  forall (a : nat) (Y : list ndarray),
    (a + n < List.length Y)%nat -> rows4 Y ->
    exists Y' : list ndarray,
      result_of (for_each (seq a n) (rk4_body self dt) Y) = inr Y' /\
      List.length Y' = List.length Y /\
      rows4 Y' /\
      (forall j, (j <= a)%nat -> nth_error Y' j = nth_error Y j) /\
      (forall i, (a <= i < a + n)%nat ->
         exists yi ynext,
           nth_error Y' i = Some yi /\ nth_error Y' (i + 1) = Some ynext /\
           rk4_update_spec self dt yi ynext).
Proof.
  induction n as [|n IH]; intros a Y Hlen Hrows.
  - exists Y; simpl; repeat split; auto; intros; lia.
  - destruct (nth_error Y a) as [ya|] eqn:Ea;
      [|apply nth_error_None in Ea; lia].
    destruct (rk4_body_ok self dt a Y ya Ea (Hrows _ _ Ea) ltac:(lia))
      as (ynext & Y1 & Ebody & Eset & Hupd & Hyn).
    destruct (setrow_ok Y (a + 1) ynext ltac:(lia)) as (Y1' & Eset' & Hl1 & Hn1 & Ho1).
    rewrite Eset in Eset'; inversion Eset'; subst Y1'; clear Eset'.
    assert (Hrows1 : rows4 Y1).
    { intros j row Hj; destruct (Nat.eq_dec j (a + 1)) as [->|Hne].
      - rewrite Hn1 in Hj; inversion Hj; subst; assumption.
      - rewrite Ho1 in Hj by assumption; eapply Hrows; eassumption. }
    destruct (IH (S a) Y1 ltac:(lia) Hrows1)
      as (Y' & Eloop & Hl' & Hrows' & Hsame & Hchain).
    exists Y'; repeat split; auto.
    + simpl; rewrite (result_bind_inr _ _ Y1) by exact Ebody; exact Eloop.
    + congruence.
    + intros j Hj; rewrite Hsame by lia; apply Ho1; lia.
    + intros i Hi; destruct (Nat.eq_dec i a) as [->|Hne].
      * exists ya, ynext; repeat split; auto.
        -- rewrite Hsame by lia; rewrite Ho1 by lia; assumption.
        -- rewrite Hsame by lia; assumption.
      * apply Hchain; lia.
Qed.

(** ** [integrate] on each of its paths *)

Lemma valid_args_tests (y0 : ndarray) (t_max dt : R) :
  valid_args y0 t_max dt ->
  Rleb dt 0 = false /\ Rleb t_max 0 = false /\
  negb (shape_eqb (shape y0) [4%nat]) = false.
Proof.
  intros (Hdt & Ht & Hs); repeat split.
  - now apply Rleb_false.
  - now apply Rleb_false.
  - apply negb_false_iff, shape_eqb_true; assumption.
Qed.

Lemma valid_args_dec (y0 : ndarray) (t_max dt : R) :
  valid_args y0 t_max dt \/ (dt <= 0 \/ t_max <= 0 \/ shape y0 <> [4%nat]).
Proof.
  unfold valid_args.
  destruct (Rle_dec dt 0); [tauto|].
  destruct (Rle_dec t_max 0); [tauto|].
  destruct (list_eq_dec Nat.eq_dec (shape y0) [4%nat]); [|tauto].
  left; repeat split; auto; lra.
Qed.

Lemma integrate_invalid (self : DoublePendulum) (y0 : ndarray)
  (t_max dt : R) (method : string) :
  dt <= 0 \/ t_max <= 0 \/ shape y0 <> [4%nat] ->
  exists msg : string,
    integrate self y0 t_max dt method = ([], inl (ValueError msg)).
Proof.
  intros H; unfold integrate.
  destruct (Rleb dt 0) eqn:E1; [eexists; reflexivity|].
  destruct (Rleb t_max 0) eqn:E2; [eexists; reflexivity|].
  destruct (shape_eqb (shape y0) [4%nat]) eqn:E3; [|eexists; reflexivity].
  apply Rleb_false in E1, E2; apply shape_eqb_true in E3.
  destruct H as [H|[H|H]]; [lra | lra | contradiction].
Qed.

Lemma store_y0 (y0 : ndarray) (t_max dt : R) :
  valid_args y0 t_max dt ->
  let N := List.length (arange 0.0 (t_max + dt / 2) dt) in
  exists Y0 : list ndarray,
    store (zeros N 4) 0 y0 = ([ev_setrow 0], inr Y0) /\
    List.length Y0 = N /\ nth_error Y0 0 = Some y0 /\ rows4 Y0.
Proof.
  intros (Hdt & Ht & Hs) N.
  assert (HN : (0 < N)%nat) by (apply grid_nonempty; assumption).
  destruct (setrow_ok (zeros N 4) 0 y0) as (Y0 & E & Hl & Hn & Ho);
    [now rewrite zeros_length|].
  exists Y0; unfold store; rewrite E; simpl; repeat split; auto.
  - now rewrite Hl, zeros_length.
  - intros j row Hj; destruct (Nat.eq_dec j 0) as [->|Hne].
    + rewrite Hn in Hj; inversion Hj; subst.
      unfold shape in Hs; congruence.
    + rewrite Ho in Hj by assumption; eapply zeros_row; eassumption.
Qed.

Lemma integrate_unsupported (self : DoublePendulum) (y0 : ndarray)
  (t_max dt : R) (method : string) :
  valid_args y0 t_max dt -> lower method <> "rk4"%string ->
  let N := List.length (arange 0.0 (t_max + dt / 2) dt) in
  integrate self y0 t_max dt method
  = ([ev_arange N; ev_zeros N 4; ev_setrow 0],
     inl (NotImplementedError (unsupported_message method))).
Proof.
  intros Hv Hm N.
  destruct (valid_args_tests _ _ _ Hv) as (E1 & E2 & E3).
  destruct (store_y0 _ _ _ Hv) as (Y0 & ES & _).
  cbv zeta in ES; subst N.
  unfold integrate; rewrite E1, E2, E3; cbv zeta.
  apply String.eqb_neq in Hm; rewrite Hm.
  apply injective_projections.
  - match goal with |- fst ?c = ?r => change (log_of c = r) end.
    rewrite (log_bind_inr _ _ tt) by reflexivity.
    rewrite (log_bind_inr _ _ tt) by reflexivity.
    rewrite (log_bind_inr _ _ Y0) by (rewrite ES; reflexivity).
    rewrite ES; reflexivity.
  - match goal with |- snd ?c = ?r => change (result_of c = r) end.
    rewrite (result_bind_inr _ _ tt) by reflexivity.
    rewrite (result_bind_inr _ _ tt) by reflexivity.
    rewrite (result_bind_inr _ _ Y0) by (rewrite ES; reflexivity).
    reflexivity.
Qed.

Lemma integrate_rk4 (self : DoublePendulum) (y0 : ndarray)
  (t_max dt : R) (method : string) :
  valid_args y0 t_max dt -> lower method = "rk4"%string ->
  exists Y : list ndarray,
    result_of (integrate self y0 t_max dt method)
    = inr (arange 0.0 (t_max + dt / 2) dt, Y) /\
    List.length Y = List.length (arange 0.0 (t_max + dt / 2) dt) /\
    nth_error Y 0 = Some y0 /\
    rk4_trajectory self dt Y.
Proof.
  intros Hv Hm.
  destruct (valid_args_tests _ _ _ Hv) as (E1 & E2 & E3).
  destruct (store_y0 _ _ _ Hv) as (Y0 & ES & Hl0 & Hn0 & Hrows0).
  set (N := List.length (arange 0.0 (t_max + dt / 2) dt)) in *.
  assert (HN : (0 < N)%nat) by (apply grid_nonempty; apply Hv).
  destruct (rk4_loop_ok self dt (N - 1) 0 Y0 ltac:(lia) Hrows0)
    as (Y & Eloop & Hl & _ & Hsame & Hchain).
  exists Y; repeat split.
  - unfold integrate; rewrite E1, E2, E3; cbv zeta; fold N.
    rewrite (result_bind_inr _ _ tt) by reflexivity.
    rewrite (result_bind_inr _ _ tt) by reflexivity.
    rewrite (result_bind_inr _ _ Y0) by (rewrite ES; reflexivity).
    apply String.eqb_eq in Hm; rewrite Hm.
    rewrite (result_bind_inr _ _ Y) by exact Eloop.
    reflexivity.
  - congruence.
  - rewrite Hsame by lia; assumption.
  - intros i Hi; apply Hchain; lia.
Qed.

(** ** [derivatives] on a state of four components *)

Lemma derivatives_degenerate (self : DoublePendulum)
  (theta1 theta2 omega1 omega2 : R) :
  degenerate self theta1 theta2 ->
  derivatives self [theta1; theta2; omega1; omega2]
  = inr [omega1; omega2; 0; 0].
Proof.
  unfold degenerate, denom1_spec, denom2_spec; intros H.
  unfold derivatives; cbv zeta.
  replace (L1 self * (m1 self + m2 self * sin (theta1 - theta2) * sin (theta1 - theta2)))
    with (L1 self * (m1 self + m2 self * sin (theta1 - theta2) ^ 2)) by ring.
  replace (L2 self * (m1 self + m2 self * sin (theta1 - theta2) * sin (theta1 - theta2)))
    with (L2 self * (m1 self + m2 self * sin (theta1 - theta2) ^ 2)) by ring.
  match goal with |- (if ?b then _ else _) = _ => assert (Hb : b = true) end.
  { apply orb_true_iff; destruct H; [left | right]; now apply Rltb_true. }
  rewrite Hb; repeat f_equal; lra.
Qed.

Lemma derivatives_regular (self : DoublePendulum)
  (theta1 theta2 omega1 omega2 : R) :
  ~ degenerate self theta1 theta2 ->
  derivatives self [theta1; theta2; omega1; omega2]
  = inr [omega1; omega2;
         num1_spec self theta1 theta2 omega1 omega2
           / denom1_spec self theta1 theta2;
         num2_spec self theta1 theta2 omega1 omega2
           / denom2_spec self theta1 theta2].
Proof.
  unfold degenerate, denom1_spec, denom2_spec, num1_spec, num2_spec; intros H.
  unfold derivatives; cbv zeta.
  replace (L1 self * (m1 self + m2 self * sin (theta1 - theta2) * sin (theta1 - theta2)))
    with (L1 self * (m1 self + m2 self * sin (theta1 - theta2) ^ 2)) by ring.
  replace (L2 self * (m1 self + m2 self * sin (theta1 - theta2) * sin (theta1 - theta2)))
    with (L2 self * (m1 self + m2 self * sin (theta1 - theta2) ^ 2)) by ring.
  match goal with |- (if ?b then _ else _) = _ => assert (Hb : b = false) end.
  { apply orb_false_iff; split; apply Rltb_false;
      apply Rnot_lt_le; intros Hlt; apply H; [left | right]; exact Hlt. }
  rewrite Hb; reflexivity.
Qed.

Lemma degenerate_dec (self : DoublePendulum) (theta1 theta2 : R) :
  degenerate self theta1 theta2 \/ ~ degenerate self theta1 theta2.
Proof.
  unfold degenerate.
  destruct (Rlt_dec (Rabs (denom1_spec self theta1 theta2)) 1e-8); [tauto|].
  destruct (Rlt_dec (Rabs (denom2_spec self theta1 theta2)) 1e-8); tauto.
Qed.

(** ** Construction of a model *)

Lemma init_positive (l1 l2 a1 a2 g0 : R) :
  0 < l1 -> 0 < l2 -> 0 < a1 -> 0 < a2 ->
  __init__ l1 l2 a1 a2 g0 = inr (mkDoublePendulum l1 l2 a1 a2 g0).
Proof.
  intros H1 H2 H3 H4; unfold __init__.
  apply Rleb_false in H1, H2, H3, H4; rewrite H1, H2, H3, H4; reflexivity.
Qed.

(** C9. Construction raises [ValueError] whenever one of [L1], [L2], [m1],
    [m2] is non-positive; when the four are positive it succeeds and the
    instance holds exactly the supplied values. *)
Theorem init_validates_lengths_and_masses (l1 l2 a1 a2 g0 : R) :
  (l1 <= 0 \/ l2 <= 0 \/ a1 <= 0 \/ a2 <= 0 ->
   exists msg : string, __init__ l1 l2 a1 a2 g0 = inl (ValueError msg)) /\
  (0 < l1 /\ 0 < l2 /\ 0 < a1 /\ 0 < a2 ->
   exists self : DoublePendulum,
     __init__ l1 l2 a1 a2 g0 = inr self /\
     L1 self = l1 /\ L2 self = l2 /\ m1 self = a1 /\ m2 self = a2 /\
     g self = g0).
Proof.
  split.
  - intros H; unfold __init__.
    destruct (Rleb l1 0 || Rleb l2 0) eqn:E1; [eexists; reflexivity|].
    destruct (Rleb a1 0 || Rleb a2 0) eqn:E2; [eexists; reflexivity|].
    apply orb_false_iff in E1, E2; destruct E1 as [E1 E1'], E2 as [E2 E2'].
    apply Rleb_false in E1, E1', E2, E2'; lra.
  - intros (H1 & H2 & H3 & H4); eexists; split;
      [apply init_positive; assumption | simpl; auto 6].
Qed.

Lemma init_validates_lengths_and_masses_witness :
  (exists msg : string, __init__ (-1) 1 1 1 g_default = inl (ValueError msg)) /\
  (exists self : DoublePendulum,
     __init__ 2.0 2.0 1.0 3.0 g_default = inr self /\
     L1 self = 2.0 /\ L2 self = 2.0 /\ m1 self = 1.0 /\ m2 self = 3.0 /\
     g self = g_default).
Proof.
  split.
  - apply (proj1 (init_validates_lengths_and_masses (-1) 1 1 1 g_default)).
    left; lra.
  - apply (proj2 (init_validates_lengths_and_masses 2.0 2.0 1.0 3.0 g_default)).
    repeat split; lra.
Defined.

(** C10. [g] is never validated: for positive lengths and masses the
    construction succeeds for every real [g0], zero and negative included;
    the instance stores [g0], and [derivatives] evaluates the closed forms
    with that stored value. *)
Theorem init_accepts_any_g (l1 l2 a1 a2 g0 : R) :
  0 < l1 -> 0 < l2 -> 0 < a1 -> 0 < a2 ->
  exists self : DoublePendulum,
    __init__ l1 l2 a1 a2 g0 = inr self /\
    g self = g0 /\
    forall theta1 theta2 omega1 omega2 : R,
      ~ degenerate self theta1 theta2 ->
      derivatives self [theta1; theta2; omega1; omega2]
      = inr [omega1; omega2;
             (a2 * g0 * sin theta2 * cos (theta1 - theta2)
              - a2 * sin (theta1 - theta2)
                * (l1 * omega1 ^ 2 * cos (theta1 - theta2) + l2 * omega2 ^ 2)
              - (a1 + a2) * g0 * sin theta1)
             / denom1_spec self theta1 theta2;
             ((a1 + a2)
              * (l1 * omega1 ^ 2 * sin (theta1 - theta2)
                 - g0 * sin theta2
                 + g0 * sin theta1 * cos (theta1 - theta2))
              + a2 * l2 * omega2 ^ 2
                * sin (theta1 - theta2) * cos (theta1 - theta2))
             / denom2_spec self theta1 theta2].
Proof.
  intros H1 H2 H3 H4.
  exists (mkDoublePendulum l1 l2 a1 a2 g0); split; [|split].
  - apply init_positive; assumption.
  - reflexivity.
  - intros theta1 theta2 omega1 omega2 Hreg.
    rewrite derivatives_regular by assumption; reflexivity.
Qed.

Lemma init_accepts_any_g_witness :
  (exists self, __init__ 1 1 1 1 0 = inr self /\ g self = 0) /\
  (exists self, __init__ 1 1 1 1 (-9.81) = inr self /\ g self = -9.81).
Proof.
  split.
  - destruct (init_accepts_any_g 1 1 1 1 0) as (self & E & Hg & _);
      try lra; exists self; split; assumption.
  - destruct (init_accepts_any_g 1 1 1 1 (-9.81)) as (self & E & Hg & _);
      try lra; exists self; split; assumption.
Defined.

(** ** The derivative function *)

Lemma derivatives_first_two (self : DoublePendulum)
  (theta1 theta2 omega1 omega2 : R) :
  exists alpha1 alpha2 : R,
    derivatives self [theta1; theta2; omega1; omega2]
    = inr [omega1; omega2; alpha1; alpha2].
Proof.
  destruct (degenerate_dec self theta1 theta2) as [Hdeg|Hreg].
  - rewrite derivatives_degenerate by assumption; eauto.
  - rewrite derivatives_regular by assumption; eauto.
Qed.

(** C2. When neither denominator is below the guard threshold,
    [derivatives] returns [(omega1, omega2, num1 / denom1, num2 / denom2)]
    with the closed forms of the specification; and in every case its first
    two components are the input [omega1] and [omega2]. *)
Theorem derivatives_closed_form (self : DoublePendulum)
  (theta1 theta2 omega1 omega2 : R) :
  (1e-8 <= Rabs (denom1_spec self theta1 theta2) ->
   1e-8 <= Rabs (denom2_spec self theta1 theta2) ->
   derivatives self [theta1; theta2; omega1; omega2]
   = inr [omega1; omega2;
          num1_spec self theta1 theta2 omega1 omega2
            / denom1_spec self theta1 theta2;
          num2_spec self theta1 theta2 omega1 omega2
            / denom2_spec self theta1 theta2]) /\
  (exists alpha1 alpha2 : R,
     derivatives self [theta1; theta2; omega1; omega2]
     = inr [omega1; omega2; alpha1; alpha2]).
Proof.
  split.
  - intros Hd1 Hd2; apply derivatives_regular.
    unfold degenerate; lra.
  - apply derivatives_first_two.
Qed.

Lemma demo_denominators :
  denom1_spec pend_demo 0 0 = 2 /\ denom2_spec pend_demo 0 0 = 2.
Proof.
  unfold denom1_spec, denom2_spec, pend_demo; simpl.
  rewrite Rminus_diag, sin_0; lra.
Qed.

Lemma derivatives_closed_form_witness :
  derivatives pend_demo [0; 0; 0; 0]
  = inr [0; 0;
         num1_spec pend_demo 0 0 0 0 / denom1_spec pend_demo 0 0;
         num2_spec pend_demo 0 0 0 0 / denom2_spec pend_demo 0 0].
Proof.
  apply (proj1 (derivatives_closed_form pend_demo 0 0 0 0));
    destruct demo_denominators as [E1 E2]; rewrite ?E1, ?E2, Rabs_right; lra.
Defined.

(** C5. [derivatives] returns on every state of four components.  When a
    denominator is below the threshold in magnitude the two accelerations
    are exactly 0 and no division is performed; otherwise both denominators
    are at least 1e-8 in magnitude, hence non-zero, and the quotients are
    returned. *)
Theorem derivatives_total_with_guard (self : DoublePendulum)
  (theta1 theta2 omega1 omega2 : R) :
  (exists d : ndarray,
     derivatives self [theta1; theta2; omega1; omega2] = inr d) /\
  (Rabs (denom1_spec self theta1 theta2) < 1e-8 \/
   Rabs (denom2_spec self theta1 theta2) < 1e-8 ->
   derivatives self [theta1; theta2; omega1; omega2]
   = inr [omega1; omega2; 0.0; 0.0]) /\
  (~ (Rabs (denom1_spec self theta1 theta2) < 1e-8 \/
      Rabs (denom2_spec self theta1 theta2) < 1e-8) ->
   1e-8 <= Rabs (denom1_spec self theta1 theta2) /\
   1e-8 <= Rabs (denom2_spec self theta1 theta2) /\
   denom1_spec self theta1 theta2 <> 0 /\
   denom2_spec self theta1 theta2 <> 0 /\
   derivatives self [theta1; theta2; omega1; omega2]
   = inr [omega1; omega2;
          num1_spec self theta1 theta2 omega1 omega2
            / denom1_spec self theta1 theta2;
          num2_spec self theta1 theta2 omega1 omega2
            / denom2_spec self theta1 theta2]).
Proof.
  split; [|split].
  - destruct (derivatives_first_two self theta1 theta2 omega1 omega2)
      as (a1 & a2 & E); eauto.
  - intros Hdeg; rewrite derivatives_degenerate by exact Hdeg.
    repeat f_equal; lra.
  - intros Hreg.
    assert (H1 : 1e-8 <= Rabs (denom1_spec self theta1 theta2)) by lra.
    assert (H2 : 1e-8 <= Rabs (denom2_spec self theta1 theta2)) by lra.
    repeat split; try assumption.
    + intros E; rewrite E, Rabs_R0 in H1; lra.
    + intros E; rewrite E, Rabs_R0 in H2; lra.
    + apply derivatives_regular; exact Hreg.
Qed.

(** A model with a very short first link: its first denominator is below
    the threshold although the parameters pass the checks of [__init__]. *)
Lemma short_link_degenerate :
  Rabs (denom1_spec (mkDoublePendulum 1e-9 1 1 1 9.81) 0 0) < 1e-8.
Proof.
  unfold denom1_spec; simpl; rewrite Rminus_diag, sin_0.
  rewrite Rabs_right; lra.
Qed.

Lemma derivatives_total_with_guard_witness :
  derivatives (mkDoublePendulum 1e-9 1 1 1 9.81) [0; 0; 3; 4]
  = inr [3; 4; 0.0; 0.0] /\
  derivatives pend_demo [0; 0; 0; 0]
  = inr [0; 0;
         num1_spec pend_demo 0 0 0 0 / denom1_spec pend_demo 0 0;
         num2_spec pend_demo 0 0 0 0 / denom2_spec pend_demo 0 0].
Proof.
  split.
  - apply (proj1 (proj2 (derivatives_total_with_guard
                           (mkDoublePendulum 1e-9 1 1 1 9.81) 0 0 3 4))).
    left; exact short_link_degenerate.
  - apply (proj2 (proj2 (derivatives_total_with_guard pend_demo 0 0 0 0))).
    destruct demo_denominators as [E1 E2]; rewrite ?E1, ?E2, Rabs_right; lra.
Defined.

(** ** Method names *)

Lemma lower_char_r (c : ascii) :
  lower_char c = "r"%char -> c = "r"%char \/ c = "R"%char.
Proof.
  destruct c as [[] [] [] [] [] [] [] []]; vm_compute; intros H;
    solve [discriminate H | auto].
Qed.

Lemma lower_char_k (c : ascii) :
  lower_char c = "k"%char -> c = "k"%char \/ c = "K"%char.
Proof.
  destruct c as [[] [] [] [] [] [] [] []]; vm_compute; intros H;
    solve [discriminate H | auto].
Qed.

Lemma lower_char_4 (c : ascii) : lower_char c = "4"%char -> c = "4"%char.
Proof.
  destruct c as [[] [] [] [] [] [] [] []]; vm_compute; intros H;
    solve [discriminate H | auto].
Qed.

Lemma lower_one (c : ascii) :
  lower (String c EmptyString) = String (lower_char c) EmptyString.
Proof. reflexivity. Qed.

Lemma lower_two (c c2 : ascii) :
  lower (String c (String c2 EmptyString))
  = String (lower_char c) (String (lower_char c2) EmptyString).
Proof. reflexivity. Qed.

Lemma lower_three (c c2 c3 : ascii) (s : string) :
  lower (String c (String c2 (String c3 s)))
  = if is_kelvin c c2 c3 then String "k" (lower s)
    else String (lower_char c) (lower (String c2 (String c3 s))).
Proof. reflexivity. Qed.

Lemma is_kelvin_true (c1 c2 c3 : ascii) (s : string) :
  is_kelvin c1 c2 c3 = true ->
  String c1 (String c2 (String c3 s)) = (kelvin ++ s)%string.
Proof.
  unfold is_kelvin; intros H.
  apply andb_true_iff in H; destruct H as [H H3].
  apply andb_true_iff in H; destruct H as [H1 H2].
  apply Ascii.eqb_eq in H1, H2, H3; subst; reflexivity.
Qed.

Lemma String_inj (a b : ascii) (s1 s2 : string) :
  String a s1 = String b s2 -> a = b /\ s1 = s2.
Proof. intros [= -> ->]; auto. Qed.

Lemma lower_empty (s : string) : lower s = EmptyString -> s = EmptyString.
Proof.
  destruct s as [|c [|c2 [|c3 s]]]; try discriminate; [reflexivity|].
  rewrite lower_three; destruct (is_kelvin c c2 c3); discriminate.
Qed.

Lemma lower_4 (s : string) : lower s = "4"%string -> s = "4"%string.
Proof.
  destruct s as [|c [|c2 [|c3 s]]]; try discriminate.
  - rewrite lower_one; intros [= H]; now apply lower_char_4 in H; subst.
  - rewrite lower_three; destruct (is_kelvin c c2 c3); [discriminate|].
    intros H; apply String_inj in H; destruct H as [_ H].
    apply lower_empty in H; discriminate H.
Qed.

Lemma lower_k4 (s : string) :
  lower s = "k4"%string ->
  s = "k4"%string \/ s = "K4"%string \/ s = (kelvin ++ "4")%string.
Proof.
  destruct s as [|c [|c2 [|c3 s]]]; try discriminate.
  - rewrite lower_two; intros [= H1 H2].
    apply lower_char_k in H1; apply lower_char_4 in H2; subst c2.
    destruct H1 as [-> | ->]; auto.
  - rewrite lower_three; destruct (is_kelvin c c2 c3) eqn:Ek.
    + intros H; apply String_inj in H; destruct H as [_ H].
      apply lower_4 in H; subst s.
      right; right; now apply is_kelvin_true.
    + intros H; apply String_inj in H; destruct H as [_ H].
      apply lower_4 in H; discriminate H.
Qed.

Lemma lower_rk4 (method : string) :
  lower method = "rk4"%string <-> In method rk4_spellings.
Proof.
  split.
  - destruct method as [|c [|c2 [|c3 s]]]; try discriminate.
    rewrite lower_three; destruct (is_kelvin c c2 c3); [discriminate|].
    intros H; apply String_inj in H; destruct H as [H1 H2].
    apply lower_char_r in H1; apply lower_k4 in H2.
    unfold rk4_spellings; simpl.
    destruct H1 as [-> | ->], H2 as [-> | [-> | ->]]; simpl; auto 8.
  - unfold rk4_spellings; simpl.
    intros [<-|[<-|[<-|[<-|[<-|[<-|[]]]]]]]; reflexivity.
Qed.

(** ** The grid of the examples *)

Lemma grid_length_by_bounds (t_max dt : R) (n : nat) :
  0 < dt ->
  INR n * dt - dt < t_max + dt / 2 <= INR n * dt ->
  List.length (arange 0.0 (t_max + dt / 2) dt) = n.
Proof.
  intros Hdt [Hlo Hhi].
  destruct (Nat.lt_trichotomy (List.length (arange 0.0 (t_max + dt / 2) dt)) n)
    as [Hlt | [Heq | Hgt]]; [exfalso | exact Heq | exfalso].
  - destruct n as [|n]; [lia|].
    assert (Hn : ~ (n < List.length (arange 0.0 (t_max + dt / 2) dt))%nat) by lia.
    apply Hn, arange_index; [assumption|].
    rewrite S_INR in Hlo; lra.
  - apply arange_index in Hgt; [lra | assumption].
Qed.

Lemma grid_length_1_05 : List.length (arange 0.0 (1.0 + 0.5 / 2) 0.5) = 3%nat.
Proof. apply grid_length_by_bounds; simpl; lra. Qed.



Lemma valid_demo (t_max dt : R) :
  0 < t_max -> 0 < dt -> valid_args y0_demo t_max dt.
Proof. intros; repeat split; assumption. Qed.

(** ** Errors of [integrate] *)

Lemma integrate_valid_result (self : DoublePendulum) (y0 : ndarray)
  (t_max dt : R) (method : string) :
  valid_args y0 t_max dt ->
  (lower method = "rk4"%string /\
   exists t Y, result_of (integrate self y0 t_max dt method) = inr (t, Y)) \/
  (lower method <> "rk4"%string /\
   result_of (integrate self y0 t_max dt method)
   = inl (NotImplementedError (unsupported_message method))).
Proof.
  intros Hv; destruct (string_dec (lower method) "rk4") as [Hm|Hm].
  - left; split; [assumption|].
    destruct (integrate_rk4 self y0 t_max dt method Hv Hm) as (Y & E & _).
    eauto.
  - right; split; [assumption|].
    now rewrite (integrate_unsupported self y0 t_max dt method Hv Hm).
Qed.

(** ** [integrate_nan]: the same call on arrays that may hold NaN *)

Lemma vadd_nan_length (a b : ndarray_nan) :
  List.length a = List.length b ->
  List.length (vadd_nan a b) = List.length a.
Proof.
  revert b; induction a as [|x a IH]; intros [|y b] H; simpl in *;
    try discriminate; auto.
Qed.

Lemma vscale_nan_length (c : R) (a : ndarray_nan) :
  List.length (vscale_nan c a) = List.length a.
Proof. apply length_map. Qed.

Lemma setrow_nan_ok (Y : list ndarray_nan) (i : nat) (row : ndarray_nan) :
  (i < List.length Y)%nat ->
  exists Y', setrow_nan Y i row = inr Y' /\
    List.length Y' = List.length Y /\
    nth_error Y' i = Some row /\
    (forall j, j <> i -> nth_error Y' j = nth_error Y j).
Proof.
  revert i; induction Y as [|r Y IH]; intros i Hi; simpl in Hi; [lia|].
  destruct i as [|i].
  - exists (row :: Y); simpl; repeat split; auto.
    intros [|j] Hj; [congruence | reflexivity].
  - destruct (IH i ltac:(lia)) as (Y' & E & Hl & Hn & Ho).
    exists (r :: Y'); simpl; rewrite E; repeat split; auto.
    intros [|j] Hj; simpl; auto.
Qed.

Lemma derivatives_nan_length (self : DoublePendulum) (state : ndarray_nan) :
  List.length state = 4%nat ->
  exists d, derivatives_nan self state = inr d /\ List.length d = 4%nat.
Proof.
  destruct state as [|a [|b [|c [|d [|e s]]]]]; simpl; try discriminate.
  intros _; cbv zeta.
  match goal with |- context [if ?b then _ else _] => destruct b end;
    eexists; split; reflexivity.
Qed.

Lemma rk4_body_nan_ok (self : DoublePendulum) (dt : R) (i : nat)
  (Y : list ndarray_nan) (yi : ndarray_nan) :
  nth_error Y i = Some yi -> List.length yi = 4%nat ->
  (i + 1 < List.length Y)%nat ->
  exists (ynext : ndarray_nan) (Y' : list ndarray_nan),
    rk4_body_nan self dt i Y = inr Y' /\
    setrow_nan Y (i + 1) ynext = inr Y' /\
    List.length ynext = 4%nat.
Proof.
  intros Hi Hlen Hnext.
  destruct (derivatives_nan_length self yi Hlen) as (k1 & E1 & Hk1).
  assert (Hs : forall (c : R) (k : ndarray_nan), List.length k = 4%nat ->
             List.length (vadd_nan yi (vscale_nan c k)) = 4%nat).
  { intros c k Hk; rewrite vadd_nan_length; rewrite ?vscale_nan_length;
      congruence. }
  destruct (derivatives_nan_length self _ (Hs (0.5 * dt) k1 Hk1))
    as (k2 & E2 & Hk2).
  destruct (derivatives_nan_length self _ (Hs (0.5 * dt) k2 Hk2))
    as (k3 & E3 & Hk3).
  destruct (derivatives_nan_length self _ (Hs dt k3 Hk3)) as (k4 & E4 & Hk4).
  set (ynext := vadd_nan yi
                  (vscale_nan (dt / 6.0)
                     (vadd_nan (vadd_nan (vadd_nan k1 (vscale_nan 2 k2))
                                  (vscale_nan 2 k3)) k4))).
  assert (Hyn : List.length ynext = 4%nat).
  { apply Hs; repeat (rewrite vadd_nan_length; rewrite ?vscale_nan_length);
      congruence. }
  destruct (setrow_nan_ok Y (i + 1) ynext Hnext) as (Y' & ES & _).
  exists ynext, Y'; repeat split; auto.
  unfold rk4_body_nan, getrow_nan; rewrite Hi; simpl.
  rewrite E1; simpl; rewrite E2; simpl; rewrite E3; simpl; rewrite E4; simpl.
  exact ES.
Qed.

Lemma rk4_loop_nan_ok (self : DoublePendulum) (dt : R) (n : nat) :
  forall (a : nat) (Y : list ndarray_nan),
    (a + n < List.length Y)%nat -> rows4_nan Y ->
    exists Y' : list ndarray_nan,
      for_each_nan (seq a n) (rk4_body_nan self dt) Y = inr Y' /\
      List.length Y' = List.length Y /\
      rows4_nan Y' /\
      (forall j, (j <= a)%nat -> nth_error Y' j = nth_error Y j).
Proof.
  induction n as [|n IH]; intros a Y Hlen Hrows.
  - exists Y; simpl; repeat split; auto.
  - destruct (nth_error Y a) as [ya|] eqn:Ea;
      [|apply nth_error_None in Ea; lia].
    destruct (rk4_body_nan_ok self dt a Y ya Ea (Hrows _ _ Ea) ltac:(lia))
      as (ynext & Y1 & Ebody & Eset & Hyn).
    destruct (setrow_nan_ok Y (a + 1) ynext ltac:(lia))
      as (Y1' & Eset' & Hl1 & Hn1 & Ho1).
    rewrite Eset in Eset'; inversion Eset'; subst Y1'; clear Eset'.
    assert (Hrows1 : rows4_nan Y1).
    { intros j row Hj; destruct (Nat.eq_dec j (a + 1)) as [->|Hne].
      - rewrite Hn1 in Hj; inversion Hj; subst; assumption.
      - rewrite Ho1 in Hj by assumption; eapply Hrows; eassumption. }
    destruct (IH (S a) Y1 ltac:(lia) Hrows1)
      as (Y' & Eloop & Hl' & Hrows' & Hsame).
    exists Y'; repeat split; auto.
    + simpl; rewrite Ebody; simpl; exact Eloop.
    + congruence.
    + intros j Hj; rewrite Hsame by lia; apply Ho1; lia.
Qed.

Lemma integrate_nan_invalid (self : DoublePendulum) (y0 : ndarray_nan)
  (t_max dt : R) (method : string) :
  dt <= 0 \/ t_max <= 0 \/ shape_nan y0 <> [4%nat] ->
  exists msg : string,
    integrate_nan self y0 t_max dt method = inl (ValueError msg).
Proof.
  intros H; unfold integrate_nan.
  destruct (Rleb dt 0) eqn:E1; [eexists; reflexivity|].
  destruct (Rleb t_max 0) eqn:E2; [eexists; reflexivity|].
  destruct (shape_eqb (shape_nan y0) [4%nat]) eqn:E3; [|eexists; reflexivity].
  apply Rleb_false in E1, E2; apply shape_eqb_true in E3.
  destruct H as [H|[H|H]]; [lra | lra | contradiction].
Qed.

Lemma integrate_nan_valid (self : DoublePendulum) (y0 : ndarray_nan)
  (t_max dt : R) (method : string) :
  0 < dt -> 0 < t_max -> shape_nan y0 = [4%nat] ->
  (lower method = "rk4"%string /\
   exists Y : list ndarray_nan,
     integrate_nan self y0 t_max dt method
     = inr (arange 0.0 (t_max + dt / 2) dt, Y) /\
     List.length Y = List.length (arange 0.0 (t_max + dt / 2) dt) /\
     nth_error Y 0 = Some y0) \/
  (lower method <> "rk4"%string /\
   integrate_nan self y0 t_max dt method
   = inl (NotImplementedError (unsupported_message method))).
Proof.
  intros Hdt Ht Hs.
  pose proof (grid_nonempty t_max dt Hdt Ht) as HN.
  set (N := List.length (arange 0.0 (t_max + dt / 2) dt)) in *.
  destruct (setrow_nan_ok (zeros_nan N 4) 0 y0) as (Y0 & E0 & Hl0 & Hn0 & Ho0);
    [unfold zeros_nan; now rewrite repeat_length|].
  assert (HlY0 : List.length Y0 = N)
    by (rewrite Hl0; unfold zeros_nan; now rewrite repeat_length).
  assert (Hrows0 : rows4_nan Y0).
  { intros j row Hj; destruct (Nat.eq_dec j 0) as [->|Hne].
    - rewrite Hn0 in Hj; inversion Hj; subst.
      unfold shape_nan in Hs; congruence.
    - rewrite Ho0 in Hj by assumption.
      apply nth_error_In, repeat_spec in Hj; subst; apply repeat_length. }
  assert (Hpre : integrate_nan self y0 t_max dt method
                 = if String.eqb (lower method) "rk4"
                   then and_then
                          (for_each_nan (seq 0 (N - 1))
                             (rk4_body_nan self dt) Y0)
                          (fun Y => inr (arange 0.0 (t_max + dt / 2) dt, Y))
                   else inl (NotImplementedError
                               (unsupported_message method))).
  { unfold integrate_nan.
    apply Rleb_false in Hdt, Ht; rewrite Hdt, Ht.
    assert (E3 : shape_eqb (shape_nan y0) [4%nat] = true)
      by now apply shape_eqb_true.
    rewrite E3; cbv zeta; fold N; simpl negb; cbv iota.
    rewrite E0; reflexivity. }
  destruct (string_dec (lower method) "rk4") as [Hm|Hm].
  - left; split; [assumption|].
    destruct (rk4_loop_nan_ok self dt (N - 1) 0 Y0 ltac:(lia) Hrows0)
      as (Y & Eloop & Hl & _ & Hsame).
    exists Y; rewrite Hpre.
    apply String.eqb_eq in Hm; rewrite Hm, Eloop; cbn [and_then].
    split; [reflexivity|]; split; [congruence|].
    rewrite Hsame by lia; assumption.
  - right; split; [assumption|].
    rewrite Hpre; apply String.eqb_neq in Hm; now rewrite Hm.
Qed.

(** *** The two models agree on finite data *)

Lemma result_bind {A B : Type} (c : M A) (k : A -> M B) :
  result_of (bind c k)
  = match result_of c with
    | inl e => inl e
    | inr a => result_of (k a)
    end.
Proof. destruct c as [log [e|a]]; reflexivity. Qed.

Lemma result_lift {A : Type} (r : exn + A) : result_of (lift r) = r.
Proof. reflexivity. Qed.

Lemma vadd_nan_fin (a b : ndarray) :
  vadd_nan (map Fin a) (map Fin b) = map Fin (a +v b).
Proof.
  revert b; induction a as [|x a IH]; intros [|y b]; simpl; auto.
  now rewrite IH.
Qed.

Lemma vscale_nan_fin (c : R) (a : ndarray) :
  vscale_nan c (map Fin a) = map Fin (c *v a).
Proof. unfold vscale_nan, vscale; rewrite !map_map; reflexivity. Qed.

Lemma derivatives_nan_fin (self : DoublePendulum) (state : ndarray) :
  derivatives_nan self (map Fin state)
  = match derivatives self state with
    | inl e => inl e
    | inr d => inr (map Fin d)
    end.
Proof.
  destruct state as [|a [|b [|c [|d [|e s]]]]]; try reflexivity.
  unfold derivatives_nan, derivatives; simpl.
  match goal with |- context [if ?b then _ else _] => destruct b end;
    reflexivity.
Qed.

Lemma getrow_nan_fin (Y : list ndarray) (i : nat) :
  getrow_nan (map (map Fin) Y) i
  = match getrow Y i with
    | inl e => inl e
    | inr row => inr (map Fin row)
    end.
Proof.
  unfold getrow_nan, getrow.
  revert i; induction Y as [|r Y IH]; intros [|i]; simpl; auto.
Qed.

Lemma setrow_nan_fin (Y : list ndarray) (i : nat) (row : ndarray) :
  setrow_nan (map (map Fin) Y) i (map Fin row) = lift_rows (setrow Y i row).
Proof.
  revert i; induction Y as [|r Y IH]; intros [|i]; simpl; try reflexivity.
  rewrite IH; destruct (setrow Y i row); reflexivity.
Qed.

Lemma rk4_body_nan_fin (self : DoublePendulum) (dt : R) (i : nat)
  (Y : list ndarray) :
  rk4_body_nan self dt i (map (map Fin) Y)
  = lift_rows (result_of (rk4_body self dt i Y)).
Proof.
  unfold rk4_body_nan, rk4_body; cbv zeta.
  rewrite getrow_nan_fin, result_bind, result_lift.
  destruct (getrow Y i) as [e|yi]; [reflexivity|].
  cbn [and_then].
  rewrite derivatives_nan_fin, result_bind, result_call_derivatives.
  destruct (derivatives self yi) as [e|k1]; [reflexivity|]; cbn [and_then].
  rewrite vscale_nan_fin, vadd_nan_fin, derivatives_nan_fin,
    result_bind, result_call_derivatives.
  destruct (derivatives self (yi +v 0.5 * dt *v k1)) as [e|k2];
    [reflexivity|]; cbn [and_then].
  rewrite vscale_nan_fin, vadd_nan_fin, derivatives_nan_fin,
    result_bind, result_call_derivatives.
  destruct (derivatives self (yi +v 0.5 * dt *v k2)) as [e|k3];
    [reflexivity|]; cbn [and_then].
  rewrite vscale_nan_fin, vadd_nan_fin, derivatives_nan_fin,
    result_bind, result_call_derivatives.
  destruct (derivatives self (yi +v dt *v k3)) as [e|k4];
    [reflexivity|]; cbn [and_then].
  rewrite !vscale_nan_fin, !vadd_nan_fin, vscale_nan_fin, vadd_nan_fin.
  rewrite setrow_nan_fin, result_store; reflexivity.
Qed.

Lemma for_each_nan_fin (self : DoublePendulum) (dt : R) (xs : list nat) :
  forall Y : list ndarray,
    for_each_nan xs (rk4_body_nan self dt) (map (map Fin) Y)
    = lift_rows (result_of (for_each xs (rk4_body self dt) Y)).
Proof.
  induction xs as [|x xs IH]; intros Y; [reflexivity|].
  simpl; rewrite rk4_body_nan_fin, result_bind.
  destruct (result_of (rk4_body self dt x Y)) as [e|Y1]; [reflexivity|].
  simpl; apply IH.
Qed.

Lemma integrate_nan_fin (self : DoublePendulum) (y0 : ndarray)
  (t_max dt : R) (method : string) :
  integrate_nan self (map Fin y0) t_max dt method
  = match result_of (integrate self y0 t_max dt method) with
    | inl e => inl e
    | inr (t, Y) => inr (t, map (map Fin) Y)
    end.
Proof.
  unfold integrate_nan, integrate.
  assert (Hshape : shape_nan (map Fin y0) = shape y0)
    by (unfold shape_nan, shape; now rewrite length_map).
  rewrite Hshape.
  destruct (Rleb dt 0); [reflexivity|].
  destruct (Rleb t_max 0); [reflexivity|].
  destruct (negb (shape_eqb (shape y0) [4%nat])); [reflexivity|].
  cbv zeta.
  set (t := arange 0.0 (t_max + dt / 2) dt).
  rewrite (result_bind_inr _ _ tt) by reflexivity.
  rewrite (result_bind_inr _ _ tt) by reflexivity.
  assert (Hz : zeros_nan (List.length t) 4
               = map (map Fin) (zeros (List.length t) 4)).
  { unfold zeros_nan, zeros; rewrite map_repeat; reflexivity. }
  rewrite Hz, setrow_nan_fin, result_bind, result_store.
  destruct (setrow (zeros (List.length t) 4) 0 y0) as [e|Y0];
    [reflexivity|]; cbn [lift_rows and_then].
  destruct (String.eqb (lower method) "rk4"); [|reflexivity].
  rewrite for_each_nan_fin, result_bind.
  destruct (result_of (for_each (seq 0 (List.length t - 1))
                         (rk4_body self dt) Y0)) as [e|Y];
    reflexivity.
Qed.

(** *** The arguments that [integrate] rejects *)

(** C6, as stated, fails: a state of four components whose first one is
    NaN is not made of four finite numbers, yet no test rejects it and the
    call returns a trajectory. *)
Lemma non_finite_state_counterexample :
  ~ all_finite [NaN; Fin 0; Fin 0; Fin 0] /\
  (exists (t : ndarray) (Y : list ndarray_nan),
     integrate_nan pend_demo [NaN; Fin 0; Fin 0; Fin 0] 1.0 0.5 "rk4"
     = inr (t, Y)) /\
  ~ rejects_non_finite pend_demo [NaN; Fin 0; Fin 0; Fin 0] 1.0 0.5 "rk4".
Proof.
  assert (Hnf : ~ all_finite [NaN; Fin 0; Fin 0; Fin 0]).
  { intros [[|r rs] H]; simpl in H; discriminate H. }
  assert (Hret : exists (t : ndarray) (Y : list ndarray_nan),
            integrate_nan pend_demo [NaN; Fin 0; Fin 0; Fin 0] 1.0 0.5 "rk4"
            = inr (t, Y)).
  { destruct (integrate_nan_valid pend_demo [NaN; Fin 0; Fin 0; Fin 0]
                1.0 0.5 "rk4") as [(_ & Y & E & _) | (Hm & _)];
      try lra; try reflexivity; [eauto | exfalso; apply Hm; reflexivity]. }
  split; [exact Hnf | split; [exact Hret|]].
  intros [_ Hrej]; destruct Hret as (t & Y & E).
  destruct Hrej as [msg Emsg]; [left; intros [_ H]; exact (Hnf H)|].
  rewrite E in Emsg; discriminate Emsg.
Qed.

(** C6, amended. [integrate] raises [ValueError] exactly when [y0] does not
    have shape (4,), or [dt <= 0], or [t_max <= 0], and then returns no
    trajectory.  The components of [y0] are not examined: an array of four
    components is accepted whether or not they are finite.  On finite
    arrays the call is the one modelled by [integrate]. *)
Theorem integrate_rejects_malformed_arguments (self : DoublePendulum)
  (y0 : ndarray_nan) (t_max dt : R) (method : string) :
  ((exists msg : string,
      integrate_nan self y0 t_max dt method = inl (ValueError msg))
   <-> (shape_nan y0 <> [4%nat] \/ dt <= 0 \/ t_max <= 0)) /\
  (shape_nan y0 <> [4%nat] \/ dt <= 0 \/ t_max <= 0 ->
   forall t Y, integrate_nan self y0 t_max dt method <> inr (t, Y)) /\
  (forall y : ndarray,
     y0 = map Fin y ->
     integrate_nan self y0 t_max dt method
     = match result_of (integrate self y t_max dt method) with
       | inl e => inl e
       | inr (t, Y) => inr (t, map (map Fin) Y)
       end).
Proof.
  assert (Hbad : shape_nan y0 <> [4%nat] \/ dt <= 0 \/ t_max <= 0 ->
            exists msg, integrate_nan self y0 t_max dt method
                        = inl (ValueError msg)).
  { intros H; apply integrate_nan_invalid; tauto. }
  split; [split|split].
  - intros [msg E].
    destruct (Rle_dec dt 0); [tauto|]. destruct (Rle_dec t_max 0); [tauto|].
    destruct (list_eq_dec Nat.eq_dec (shape_nan y0) [4%nat]) as [Hs|]; [|tauto].
    destruct (integrate_nan_valid self y0 t_max dt method
                ltac:(lra) ltac:(lra) Hs)
      as [(_ & Y & E' & _) | (_ & E')]; congruence.
  - exact Hbad.
  - intros H t Y E; destruct (Hbad H) as [msg E']; congruence.
  - intros y ->; apply integrate_nan_fin.
Qed.

Lemma integrate_rejects_malformed_arguments_witness :
  (forall t Y,
     integrate_nan pend_demo (map Fin y0_demo) (-1) 0.1 "rk4" <> inr (t, Y)) /\
  (exists msg : string,
     integrate_nan pend_demo [NaN; Fin 0; Fin 0] 1.0 0.5 "rk4"
     = inl (ValueError msg)).
Proof.
  split.
  - apply (proj1 (proj2 (integrate_rejects_malformed_arguments
                           pend_demo (map Fin y0_demo) (-1) 0.1 "rk4"))).
    right; right; lra.
  - apply (proj2 (proj1 (integrate_rejects_malformed_arguments
                           pend_demo [NaN; Fin 0; Fin 0] 1.0 0.5 "rk4"))).
    left; discriminate.
Defined.

(** ** The method name *)

(** C7. When the three argument checks pass, [integrate] accepts the method
    name "rk4" whatever the case of its letters, that is, every name whose
    lower case is "rk4" ("rk4", "RK4", "Rk4", ...): it runs the Runge-Kutta
    scheme and returns its trajectory.  For every other name it raises
    [NotImplementedError] with a message that quotes the name, and no
    derivative is evaluated.  A trajectory that is returned is always the
    Runge-Kutta one. *)
Theorem integrate_method_dispatch (self : DoublePendulum) (y0 : ndarray)
  (t_max dt : R) (method : string) :
  valid_args y0 t_max dt ->
  (lower method = "rk4"%string <-> In method rk4_spellings) /\
  (lower method = "rk4"%string ->
   exists t Y,
     result_of (integrate self y0 t_max dt method) = inr (t, Y) /\
     nth_error Y 0 = Some y0 /\ rk4_trajectory self dt Y) /\
  (lower method <> "rk4"%string ->
   result_of (integrate self y0 t_max dt method)
   = inl (NotImplementedError
            ("Метод интегрирования '" ++ method
             ++ "' не реализован. Только 'rk4'.")) /\
   forallb (fun ev => negb (is_ev_derivatives ev))
     (log_of (integrate self y0 t_max dt method)) = true) /\
  (forall t Y,
     result_of (integrate self y0 t_max dt method) = inr (t, Y) ->
     lower method = "rk4"%string /\ rk4_trajectory self dt Y).
Proof.
  intros Hv; split; [apply lower_rk4|]; split; [|split].
  - intros Hm.
    destruct (integrate_rk4 self y0 t_max dt method Hv Hm)
      as (Y & E & _ & H0 & Htraj); eauto.
  - intros Hm.
    rewrite (integrate_unsupported self y0 t_max dt method Hv Hm).
    split; reflexivity.
  - intros t Y E.
    destruct (string_dec (lower method) "rk4") as [Hm|Hm].
    + destruct (integrate_rk4 self y0 t_max dt method Hv Hm)
        as (Y' & E' & _ & _ & Htraj).
      rewrite E' in E; inversion E; subst; split; assumption.
    + rewrite (integrate_unsupported self y0 t_max dt method Hv Hm) in E.
      discriminate E.
Qed.

Lemma integrate_method_dispatch_witness :
  (exists t Y,
     result_of (integrate pend_demo y0_demo 1.0 0.5 "RK4") = inr (t, Y) /\
     nth_error Y 0 = Some y0_demo /\ rk4_trajectory pend_demo 0.5 Y) /\
  (exists t Y,
     result_of (integrate pend_demo y0_demo 1.0 0.5 "Rk4") = inr (t, Y) /\
     nth_error Y 0 = Some y0_demo /\ rk4_trajectory pend_demo 0.5 Y) /\
  (exists t Y,
     result_of (integrate pend_demo y0_demo 1.0 0.5 ("R" ++ kelvin ++ "4"))
     = inr (t, Y) /\
     nth_error Y 0 = Some y0_demo /\ rk4_trajectory pend_demo 0.5 Y) /\
  result_of (integrate pend_demo y0_demo 1.0 0.1 "euler")
  = inl (NotImplementedError
           "Метод интегрирования 'euler' не реализован. Только 'rk4'.").
Proof.
  split; [|split; [|split]].
  - apply (integrate_method_dispatch pend_demo y0_demo 1.0 0.5 "RK4");
      [apply valid_demo; lra | reflexivity].
  - apply (integrate_method_dispatch pend_demo y0_demo 1.0 0.5 "Rk4");
      [apply valid_demo; lra | reflexivity].
  - apply (integrate_method_dispatch pend_demo y0_demo 1.0 0.5
             ("R" ++ kelvin ++ "4"));
      [apply valid_demo; lra | reflexivity].
  - apply (integrate_method_dispatch pend_demo y0_demo 1.0 0.1 "euler");
      [apply valid_demo; lra | discriminate].
Defined.

(** C8, as stated, fails: with valid arguments and an unknown method the
    grid and the state array are built, and the initial state is stored,
    before the call raises. *)
Lemma method_check_counterexample :
  result_of (integrate pend_demo y0_demo 1.0 0.5 "euler")
  = inl (NotImplementedError (unsupported_message "euler")) /\
  log_of (integrate pend_demo y0_demo 1.0 0.5 "euler")
  = [ev_arange 3; ev_zeros 3 4; ev_setrow 0] /\
  log_of (integrate pend_demo y0_demo 1.0 0.5 "euler") <> [].
Proof.
  rewrite (integrate_unsupported pend_demo y0_demo 1.0 0.5 "euler");
    [| apply valid_demo; lra | discriminate].
  rewrite grid_length_1_05; repeat split; discriminate.
Qed.

(** C8, amended. A failing call returns no trajectory and evaluates no
    derivative.  The checks of [dt], [t_max] and [y0] come before anything
    is built; the check of the method comes after the grid and the state
    array are built and the initial state is stored in row 0, and before
    the first derivative. *)
Theorem integrate_failure_order (self : DoublePendulum) (y0 : ndarray)
  (t_max dt : R) (method : string) (e : exn) :
  result_of (integrate self y0 t_max dt method) = inl e ->
  let N := List.length (arange 0.0 (t_max + dt / 2) dt) in
  (forall t Y, result_of (integrate self y0 t_max dt method) <> inr (t, Y)) /\
  forallb (fun ev => negb (is_ev_derivatives ev))
    (log_of (integrate self y0 t_max dt method)) = true /\
  (((dt <= 0 \/ t_max <= 0 \/ shape y0 <> [4%nat]) /\
    (exists msg : string, e = ValueError msg) /\
    log_of (integrate self y0 t_max dt method) = [])
   \/
   (valid_args y0 t_max dt /\ lower method <> "rk4"%string /\
    e = NotImplementedError (unsupported_message method) /\
    log_of (integrate self y0 t_max dt method)
    = [ev_arange N; ev_zeros N 4; ev_setrow 0])).
Proof.
  intros E N.
  split; [intros t Y E'; rewrite E' in E; discriminate E|].
  destruct (valid_args_dec y0 t_max dt) as [Hv|Hinv].
  - destruct (string_dec (lower method) "rk4") as [Hm|Hm].
    + destruct (integrate_rk4 self y0 t_max dt method Hv Hm) as (Y & E' & _).
      rewrite E' in E; discriminate E.
    + pose proof (integrate_unsupported self y0 t_max dt method Hv Hm) as Eq.
      cbv zeta in Eq; fold N in Eq; rewrite Eq in E |- *.
      simpl in E; inversion E; subst e.
      split; [reflexivity|]; right; repeat split; auto; apply Hv.
  - destruct (integrate_invalid self y0 t_max dt method Hinv) as [msg Eq].
    rewrite Eq in E |- *; simpl in E; inversion E; subst e.
    split; [reflexivity|]; left; repeat split; eauto.
Qed.

Lemma integrate_failure_order_witness :
  forallb (fun ev => negb (is_ev_derivatives ev))
    (log_of (integrate pend_demo y0_demo 1.0 0.5 "euler")) = true /\
  forallb (fun ev => negb (is_ev_derivatives ev))
    (log_of (integrate pend_demo y0_demo 1.0 0 "rk4")) = true.
Proof.
  split.
  - assert (E : result_of (integrate pend_demo y0_demo 1.0 0.5 "euler")
                = inl (NotImplementedError (unsupported_message "euler"))).
    { rewrite (integrate_unsupported pend_demo y0_demo 1.0 0.5 "euler");
        [reflexivity | apply valid_demo; lra | discriminate]. }
    destruct (integrate_failure_order pend_demo y0_demo 1.0 0.5 "euler" _ E)
      as (_ & H & _); exact H.
  - destruct (integrate_invalid pend_demo y0_demo 1.0 0 "rk4") as [msg E];
      [left; lra|].
    assert (E' : result_of (integrate pend_demo y0_demo 1.0 0 "rk4")
                 = inl (ValueError msg)) by (rewrite E; reflexivity).
    destruct (integrate_failure_order pend_demo y0_demo 1.0 0 "rk4" _ E')
      as (_ & H & _); exact H.
Defined.

(** ** The returned trajectory *)

Lemma integrate_success (self : DoublePendulum) (y0 : ndarray)
  (t_max dt : R) (method : string) (t : ndarray) (Y : list ndarray) :
  result_of (integrate self y0 t_max dt method) = inr (t, Y) ->
  valid_args y0 t_max dt /\ lower method = "rk4"%string /\
  t = arange 0.0 (t_max + dt / 2) dt /\
  List.length Y = List.length t /\
  nth_error Y 0 = Some y0 /\
  rk4_trajectory self dt Y.
Proof.
  intros E.
  destruct (valid_args_dec y0 t_max dt) as [Hv|Hinv].
  - destruct (string_dec (lower method) "rk4") as [Hm|Hm].
    + destruct (integrate_rk4 self y0 t_max dt method Hv Hm)
        as (Y' & E' & Hl & H0 & Htraj).
      rewrite E' in E; inversion E; subst; auto 6.
    + rewrite (integrate_unsupported self y0 t_max dt method Hv Hm) in E.
      discriminate E.
  - destruct (integrate_invalid self y0 t_max dt method Hinv) as [msg E'].
    rewrite E' in E; discriminate E.
Qed.

Lemma integrate_demo_returns (t_max dt : R) :
  0 < t_max -> 0 < dt ->
  exists Y : list ndarray,
    result_of (integrate pend_demo y0_demo t_max dt "rk4")
    = inr (arange 0.0 (t_max + dt / 2) dt, Y).
Proof.
  intros Ht Hdt.
  destruct (integrate_rk4 pend_demo y0_demo t_max dt "rk4") as (Y & E & _);
    [apply valid_demo; assumption | reflexivity | eauto].
Qed.

(** C1. In the trajectory returned by a call with [method = "rk4"], row 0
    is [y0], and every row [i + 1], for [i] from 0 to [N - 2], is the
    classical Runge-Kutta update of row [i]: with [k1 .. k4] the four
    stage derivatives, [Y[i+1] = Y[i] + (dt/6) * (k1 + 2*k2 + 2*k3 + k4)],
    component-wise. *)
Theorem integrate_rk4_rows (self : DoublePendulum) (y0 : ndarray)
  (t_max dt : R) (t : ndarray) (Y : list ndarray) :
  result_of (integrate self y0 t_max dt "rk4") = inr (t, Y) ->
  nth_error Y 0 = Some y0 /\
  forall i : nat, (i + 2 <= List.length t)%nat ->
    exists yi k1 k2 k3 k4 : ndarray,
      nth_error Y i = Some yi /\
      derivatives self yi = inr k1 /\
      derivatives self (yi +v (dt / 2) *v k1) = inr k2 /\
      derivatives self (yi +v (dt / 2) *v k2) = inr k3 /\
      derivatives self (yi +v dt *v k3) = inr k4 /\
      nth_error Y (i + 1)
      = Some (yi +v (dt / 6) *v (k1 +v 2 *v k2 +v 2 *v k3 +v k4)).
Proof.
  intros E.
  destruct (integrate_success _ _ _ _ _ _ _ E)
    as (_ & _ & _ & Hl & H0 & Htraj).
  split; [assumption|].
  intros i Hi.
  destruct (Htraj i ltac:(lia))
    as (yi & ynext & Ei & En & k1 & k2 & k3 & k4 & E1 & E2 & E3 & E4 & ->).
  exists yi, k1, k2, k3, k4; auto 8.
Qed.

Lemma integrate_rk4_rows_witness :
  exists (t : ndarray) (Y : list ndarray),
    result_of (integrate pend_demo y0_demo 1.0 0.5 "rk4") = inr (t, Y) /\
    nth_error Y 0 = Some y0_demo /\
    exists yi k1 k2 k3 k4 : ndarray,
      nth_error Y 1 = Some yi /\
      derivatives pend_demo yi = inr k1 /\
      derivatives pend_demo (yi +v (0.5 / 2) *v k1) = inr k2 /\
      derivatives pend_demo (yi +v (0.5 / 2) *v k2) = inr k3 /\
      derivatives pend_demo (yi +v 0.5 *v k3) = inr k4 /\
      nth_error Y 2
      = Some (yi +v (0.5 / 6) *v (k1 +v 2 *v k2 +v 2 *v k3 +v k4)).
Proof.
  destruct (integrate_demo_returns 1.0 0.5) as (Y & E); [lra | lra |].
  exists (arange 0.0 (1.0 + 0.5 / 2) 0.5), Y.
  split; [exact E|].
  destruct (integrate_rk4_rows pend_demo y0_demo 1.0 0.5 _ Y E) as [H0 Hrows].
  split; [exact H0|].
  apply (Hrows 1%nat); rewrite grid_length_1_05; lia.
Defined.








(** * Further properties of [pendulum.py] *)

(** ** What one call costs *)

Lemma log_call_derivatives (self : DoublePendulum) (state : ndarray) :
  log_of (call_derivatives self state) = [ev_derivatives state].
Proof.
  unfold call_derivatives, bind, emit, lift; simpl.
  destruct (derivatives self state); reflexivity.
Qed.

Lemma log_store_ok (Y Y' : list ndarray) (i : nat) (row : ndarray) :
  setrow Y i row = inr Y' -> log_of (store Y i row) = [ev_setrow i].
Proof. intros E; unfold store; rewrite E; reflexivity. Qed.

Lemma rk4_body_log (self : DoublePendulum) (dt : R) (i : nat)
  (Y : list ndarray) (yi : ndarray) :
  nth_error Y i = Some yi -> List.length yi = 4%nat ->
  (i + 1 < List.length Y)%nat ->
  exists s2 s3 s4 : ndarray,
    log_of (rk4_body self dt i Y)
    = [ev_derivatives yi; ev_derivatives s2; ev_derivatives s3;
       ev_derivatives s4; ev_setrow (i + 1)].
Proof.
  intros Hi Hlen Hnext.
  destruct (derivatives_length self yi Hlen) as (k1 & E1 & Hk1).
  assert (Hs : forall (c : R) (k : ndarray), List.length k = 4%nat ->
             List.length (yi +v c *v k) = 4%nat).
  { intros c k Hk; rewrite vadd_length; rewrite ?vscale_length; congruence. }
  destruct (derivatives_length self _ (Hs (0.5 * dt) k1 Hk1)) as (k2 & E2 & Hk2).
  destruct (derivatives_length self _ (Hs (0.5 * dt) k2 Hk2)) as (k3 & E3 & Hk3).
  destruct (derivatives_length self _ (Hs dt k3 Hk3)) as (k4 & E4 & Hk4).
  destruct (setrow_ok Y (i + 1)
              (yi +v (dt / 6.0) *v (k1 +v 2 *v k2 +v 2 *v k3 +v k4)) Hnext)
    as (Y' & ES & _).
  exists (yi +v 0.5 * dt *v k1), (yi +v 0.5 * dt *v k2), (yi +v dt *v k3).
  unfold rk4_body.
  rewrite (log_bind_inr _ _ yi) by (unfold getrow; now rewrite Hi).
  rewrite (log_bind_inr _ _ k1) by exact E1.
  rewrite (log_bind_inr _ _ k2) by exact E2.
  rewrite (log_bind_inr _ _ k3) by exact E3.
  rewrite (log_bind_inr _ _ k4) by exact E4.
  rewrite !log_call_derivatives, (log_store_ok _ Y') by exact ES.
  reflexivity.
Qed.

Lemma count_derivatives_app (l1 l2 : list event) :
  count_derivatives (l1 ++ l2)
  = (count_derivatives l1 + count_derivatives l2)%nat.
Proof. unfold count_derivatives; now rewrite filter_app, length_app. Qed.

Lemma count_setrow_app (l1 l2 : list event) :
  count_setrow (l1 ++ l2) = (count_setrow l1 + count_setrow l2)%nat.
Proof. unfold count_setrow; now rewrite filter_app, length_app. Qed.

Lemma rk4_loop_log (self : DoublePendulum) (dt : R) (n : nat) :
  forall (a : nat) (Y : list ndarray),
    (a + n < List.length Y)%nat -> rows4 Y ->
    count_derivatives (log_of (for_each (seq a n) (rk4_body self dt) Y))
    = (4 * n)%nat /\
    count_setrow (log_of (for_each (seq a n) (rk4_body self dt) Y)) = n.
Proof.
  induction n as [|n IH]; intros a Y Hlen Hrows.
  - split; reflexivity.
  - destruct (nth_error Y a) as [ya|] eqn:Ea;
      [|apply nth_error_None in Ea; lia].
    destruct (rk4_body_ok self dt a Y ya Ea (Hrows _ _ Ea) ltac:(lia))
      as (ynext & Y1 & Ebody & Eset & _ & Hyn).
    destruct (rk4_body_log self dt a Y ya Ea (Hrows _ _ Ea) ltac:(lia))
      as (s2 & s3 & s4 & Elog).
    destruct (setrow_ok Y (a + 1) ynext ltac:(lia))
      as (Y1' & Eset' & Hl1 & Hn1 & Ho1).
    rewrite Eset in Eset'; inversion Eset'; subst Y1'; clear Eset'.
    assert (Hrows1 : rows4 Y1).
    { intros j row Hj; destruct (Nat.eq_dec j (a + 1)) as [->|Hne].
      - rewrite Hn1 in Hj; inversion Hj; subst; assumption.
      - rewrite Ho1 in Hj by assumption; eapply Hrows; eassumption. }
    destruct (IH (S a) Y1 ltac:(lia) Hrows1) as [IHd IHs].
    simpl for_each.
    rewrite (log_bind_inr _ _ Y1) by exact Ebody.
    rewrite count_derivatives_app, count_setrow_app, IHd, IHs, Elog.
    split; unfold count_derivatives, count_setrow; simpl; lia.
Qed.

Lemma integrate_rk4_log (self : DoublePendulum) (y0 : ndarray)
  (t_max dt : R) (method : string) :
  valid_args y0 t_max dt -> lower method = "rk4"%string ->
  let N := List.length (arange 0.0 (t_max + dt / 2) dt) in
  exists Y0 : list ndarray,
    store (zeros N 4) 0 y0 = ([ev_setrow 0], inr Y0) /\
    log_of (integrate self y0 t_max dt method)
    = [ev_arange N; ev_zeros N 4; ev_setrow 0]
      ++ log_of (for_each (seq 0 (N - 1)) (rk4_body self dt) Y0).
Proof.
  intros Hv Hm N.
  destruct (valid_args_tests _ _ _ Hv) as (E1 & E2 & E3).
  destruct (store_y0 _ _ _ Hv) as (Y0 & ES & Hl0 & Hn0 & Hrows0).
  fold N in ES, Hl0.
  assert (HN : (0 < N)%nat) by (apply grid_nonempty; apply Hv).
  destruct (rk4_loop_ok self dt (N - 1) 0 Y0 ltac:(lia) Hrows0)
    as (Y & Eloop & _).
  exists Y0; split; [exact ES|].
  unfold integrate; rewrite E1, E2, E3; cbv zeta; fold N.
  apply String.eqb_eq in Hm; rewrite Hm.
  rewrite (log_bind_inr _ _ tt) by reflexivity.
  rewrite (log_bind_inr _ _ tt) by reflexivity.
  rewrite (log_bind_inr _ _ Y0) by (rewrite ES; reflexivity).
  rewrite (log_bind_inr _ _ Y) by exact Eloop.
  rewrite ES; simpl; now rewrite app_nil_r.
Qed.

Lemma integrate_rk4_rows4 (self : DoublePendulum) (y0 : ndarray)
  (t_max dt : R) (method : string) :
  valid_args y0 t_max dt -> lower method = "rk4"%string ->
  exists Y : list ndarray,
    result_of (integrate self y0 t_max dt method)
    = inr (arange 0.0 (t_max + dt / 2) dt, Y) /\ rows4 Y.
Proof.
  intros Hv Hm.
  destruct (valid_args_tests _ _ _ Hv) as (E1 & E2 & E3).
  destruct (store_y0 _ _ _ Hv) as (Y0 & ES & Hl0 & Hn0 & Hrows0).
  set (N := List.length (arange 0.0 (t_max + dt / 2) dt)) in *.
  assert (HN : (0 < N)%nat) by (apply grid_nonempty; apply Hv).
  destruct (rk4_loop_ok self dt (N - 1) 0 Y0 ltac:(lia) Hrows0)
    as (Y & Eloop & _ & Hrows & _).
  exists Y; split; [|exact Hrows].
  unfold integrate; rewrite E1, E2, E3; cbv zeta; fold N.
  rewrite (result_bind_inr _ _ tt) by reflexivity.
  rewrite (result_bind_inr _ _ tt) by reflexivity.
  rewrite (result_bind_inr _ _ Y0) by (rewrite ES; reflexivity).
  apply String.eqb_eq in Hm; rewrite Hm.
  rewrite (result_bind_inr _ _ Y) by exact Eloop.
  reflexivity.
Qed.

Lemma integrate_counts (self : DoublePendulum) (y0 : ndarray)
  (t_max dt : R) (method : string) (t : ndarray) (Y : list ndarray) :
  result_of (integrate self y0 t_max dt method) = inr (t, Y) ->
  count_derivatives (log_of (integrate self y0 t_max dt method))
  = (4 * (List.length t - 1))%nat /\
  count_setrow (log_of (integrate self y0 t_max dt method))
  = List.length t.
Proof.
  intros E.
  destruct (integrate_success _ _ _ _ _ _ _ E) as (Hv & Hm & -> & _).
  destruct (integrate_rk4_log self y0 t_max dt method Hv Hm)
    as (Y0 & ES & ->).
  destruct (store_y0 _ _ _ Hv) as (Y0' & ES' & Hl0 & _ & Hrows0).
  rewrite ES in ES'; inversion ES'; subst Y0'; clear ES'.
  pose proof (grid_nonempty t_max dt (proj1 Hv) (proj1 (proj2 Hv))) as HN.
  set (N := List.length (arange 0.0 (t_max + dt / 2) dt)) in *.
  destruct (rk4_loop_log self dt (N - 1) 0 Y0 ltac:(lia) Hrows0) as [Hd Hs].
  rewrite count_derivatives_app, count_setrow_app, Hd, Hs.
  unfold count_derivatives, count_setrow; simpl; lia.
Qed.

(** X1. A call that returns a grid of [N] samples has evaluated
    [derivatives] exactly [4 * (N - 1)] times and has assigned exactly [N]
    rows of [Y]: row 0 once and one row per step. *)
Theorem integrate_cost (self : DoublePendulum) (y0 : ndarray)
  (t_max dt : R) (method : string) (t : ndarray) (Y : list ndarray) :
  result_of (integrate self y0 t_max dt method) = inr (t, Y) ->
  count_derivatives (log_of (integrate self y0 t_max dt method))
  = (4 * (List.length t - 1))%nat /\
  count_setrow (log_of (integrate self y0 t_max dt method))
  = List.length t.
Proof. apply integrate_counts. Qed.

Lemma integrate_cost_witness :
  exists (t : ndarray) (Y : list ndarray),
    result_of (integrate pend_demo y0_demo 1.0 0.5 "rk4") = inr (t, Y) /\
    count_derivatives (log_of (integrate pend_demo y0_demo 1.0 0.5 "rk4"))
    = 8%nat.
Proof.
  destruct (integrate_demo_returns 1.0 0.5) as (Y & E); [lra | lra |].
  exists (arange 0.0 (1.0 + 0.5 / 2) 0.5), Y; split; [exact E|].
  destruct (integrate_cost pend_demo y0_demo 1.0 0.5 "rk4" _ Y E) as [H _].
  rewrite grid_length_1_05 in H; exact H.
Defined.

(** X2. The array [Y] returned by [integrate] has shape (N, 4): as many
    rows as the grid has samples, at least one, and four components in
    every row. *)
Theorem integrate_result_shape (self : DoublePendulum) (y0 : ndarray)
  (t_max dt : R) (method : string) (t : ndarray) (Y : list ndarray) :
  result_of (integrate self y0 t_max dt method) = inr (t, Y) ->
  List.length Y = List.length t /\ (1 <= List.length t)%nat /\
  forall (i : nat) (row : ndarray),
    nth_error Y i = Some row -> List.length row = 4%nat.
Proof.
  intros E.
  destruct (integrate_success _ _ _ _ _ _ _ E) as (Hv & Hm & Ht & Hl & _).
  destruct (integrate_rk4_rows4 self y0 t_max dt method Hv Hm)
    as (Y' & E' & Hrows).
  rewrite E' in E; inversion E; subst.
  repeat split; auto.
  apply grid_nonempty; apply Hv.
Qed.

Lemma integrate_result_shape_witness :
  exists (t : ndarray) (Y : list ndarray),
    result_of (integrate pend_demo y0_demo 1.0 0.5 "rk4") = inr (t, Y) /\
    List.length Y = 3%nat.
Proof.
  destruct (integrate_demo_returns 1.0 0.5) as (Y & E); [lra | lra |].
  exists (arange 0.0 (1.0 + 0.5 / 2) 0.5), Y; split; [exact E|].
  destruct (integrate_result_shape pend_demo y0_demo 1.0 0.5 "rk4" _ Y E)
    as [H _].
  rewrite grid_length_1_05 in H; exact H.
Defined.

(** ** The size of the grid *)

Lemma grid_near_multiple (t_max dt : R) (k : nat) :
  0 < dt -> Rabs (t_max - INR k * dt) <= dt / 4 ->
  List.length (arange 0.0 (t_max + dt / 2) dt) = (k + 1)%nat.
Proof.
  intros Hdt Hnear; apply grid_length_by_bounds; [assumption|].
  rewrite Nat.add_1_r, S_INR.
  unfold Rabs in Hnear; destruct (Rcase_abs (t_max - INR k * dt)); lra.
Qed.

(** X3. When [t_max] is a whole number [k] of steps, or differs from
    [k * dt] by at most a quarter of a step, the grid has [k + 1] samples
    and its last sample is [k * dt]: the half step added to the stop value
    is what keeps that sample in. *)
Theorem integrate_grid_size (self : DoublePendulum) (y0 : ndarray)
  (t_max dt : R) (method : string) (t : ndarray) (Y : list ndarray) :
  result_of (integrate self y0 t_max dt method) = inr (t, Y) ->
  forall k : nat, Rabs (t_max - INR k * dt) <= dt / 4 ->
    List.length t = (k + 1)%nat /\
    nth_error t (List.length t - 1) = Some (INR k * dt).
Proof.
  intros E.
  destruct (integrate_success _ _ _ _ _ _ _ E)
    as ((Hdt & Ht & _) & _ & -> & _).
  intros k Hnear.
  rewrite (grid_near_multiple t_max dt k Hdt Hnear).
  split; [reflexivity|].
  replace (k + 1 - 1)%nat with k by lia.
  apply grid_sample; rewrite (grid_near_multiple t_max dt k Hdt Hnear); lia.
Qed.

Lemma integrate_grid_size_witness :
  exists (t : ndarray) (Y : list ndarray),
    result_of (integrate pend_demo y0_demo 1.5 0.5 "rk4") = inr (t, Y) /\
    List.length t = 4%nat /\
    nth_error t (List.length t - 1) = Some (INR 3 * 0.5).
Proof.
  destruct (integrate_demo_returns 1.5 0.5) as (Y & E); [lra | lra |].
  eexists; exists Y; split; [exact E|].
  apply (integrate_grid_size pend_demo y0_demo 1.5 0.5 "rk4" _ Y E 3%nat).
  replace (1.5 - INR 3 * 0.5) with 0 by (simpl; lra).
  rewrite Rabs_R0; lra.
Defined.

(** X4. When [t_max] does not exceed half a step the loop does not run:
    the call returns the single sample 0 and the single row [y0], and
    [derivatives] is never evaluated. *)
Theorem integrate_short_horizon (self : DoublePendulum) (y0 : ndarray)
  (t_max dt : R) (method : string) (t : ndarray) (Y : list ndarray) :
  result_of (integrate self y0 t_max dt method) = inr (t, Y) ->
  t_max <= dt / 2 ->
  t = [0] /\ Y = [y0] /\
  count_derivatives (log_of (integrate self y0 t_max dt method)) = 0%nat.
Proof.
  intros E Hshort.
  destruct (integrate_counts _ _ _ _ _ _ _ E) as [Hcount _].
  destruct (integrate_success _ _ _ _ _ _ _ E)
    as ((Hdt & Ht & _) & _ & Et & Hl & H0 & _).
  assert (HN : List.length t = 1%nat).
  { rewrite Et; apply grid_length_by_bounds; [assumption | simpl; lra]. }
  rewrite HN in Hl, Hcount; repeat split.
  - rewrite Et in HN |- *; unfold arange in *.
    rewrite length_map, length_seq in HN; rewrite HN; simpl.
    f_equal; lra.
  - destruct Y as [|r [|r' Y]]; simpl in Hl; try discriminate.
    simpl in H0; congruence.
  - exact Hcount.
Qed.

Lemma integrate_short_horizon_witness :
  exists (t : ndarray) (Y : list ndarray),
    result_of (integrate pend_demo y0_demo 0.1 1.0 "rk4") = inr (t, Y) /\
    t = [0] /\ Y = [y0_demo].
Proof.
  destruct (integrate_demo_returns 0.1 1.0) as (Y & E); [lra | lra |].
  eexists; exists Y; split; [exact E|].
  destruct (integrate_short_horizon pend_demo y0_demo 0.1 1.0 "rk4" _ Y E)
    as (Ht & HY & _); [lra | auto].
Defined.

(** ** Trajectories compose *)

Lemma rk4_update_functional (self : DoublePendulum) (dt : R)
  (y a b : ndarray) :
  rk4_update_spec self dt y a -> rk4_update_spec self dt y b -> a = b.
Proof.
  intros (k1 & k2 & k3 & k4 & E1 & E2 & E3 & E4 & ->)
         (h1 & h2 & h3 & h4 & F1 & F2 & F3 & F4 & ->).
  assert (k1 = h1) by congruence; subst h1.
  assert (k2 = h2) by congruence; subst h2.
  assert (k3 = h3) by congruence; subst h3.
  assert (k4 = h4) by congruence; subst h4.
  reflexivity.
Qed.

Lemma rk4_chain_agree (self : DoublePendulum) (dt : R)
  (Y Y' : list ndarray) (a b : nat) :
  rk4_trajectory self dt Y -> rk4_trajectory self dt Y' ->
  nth_error Y a = nth_error Y' b ->
  forall j : nat,
    (a + j < List.length Y)%nat -> (b + j < List.length Y')%nat ->
    nth_error Y (a + j) = nth_error Y' (b + j).
Proof.
  intros HY HY' Hab; induction j as [|j IH]; intros Ha Hb.
  - now rewrite !Nat.add_0_r.
  - specialize (IH ltac:(lia) ltac:(lia)).
    destruct (HY (a + j)%nat ltac:(lia)) as (yi & yn & Ei & En & Hu).
    destruct (HY' (b + j)%nat ltac:(lia)) as (yi' & yn' & Ei' & En' & Hu').
    rewrite Ei, Ei' in IH; inversion IH; subst yi'.
    replace (a + S j)%nat with (a + j + 1)%nat by lia.
    replace (b + S j)%nat with (b + j + 1)%nat by lia.
    rewrite En, En'; f_equal; eapply rk4_update_functional; eassumption.
Qed.

Lemma grid_length_monotone (t_max t_max' dt : R) :
  0 < dt -> 0 < t_max -> t_max <= t_max' ->
  (List.length (arange 0.0 (t_max + dt / 2) dt)
   <= List.length (arange 0.0 (t_max' + dt / 2) dt))%nat.
Proof.
  intros Hdt Ht Hle.
  pose proof (grid_nonempty t_max dt Hdt Ht) as HN.
  set (N := List.length (arange 0.0 (t_max + dt / 2) dt)) in *.
  assert (Hin : INR (N - 1) * dt < t_max + dt / 2)
    by (apply arange_index; [assumption | fold N; lia]).
  assert (H : (N - 1 < List.length (arange 0.0 (t_max' + dt / 2) dt))%nat)
    by (apply arange_index; [assumption | lra]).
  lia.
Qed.

(** X5. With the same model, initial state and step, a longer horizon
    extends the trajectory of a shorter one: the shorter grid and state
    array are prefixes of the longer ones. *)
Theorem integrate_prefix (self : DoublePendulum) (y0 : ndarray)
  (t_max t_max' dt : R) (method method' : string)
  (t t' : ndarray) (Y Y' : list ndarray) :
  result_of (integrate self y0 t_max dt method) = inr (t, Y) ->
  result_of (integrate self y0 t_max' dt method') = inr (t', Y') ->
  t_max <= t_max' ->
  t = firstn (List.length t) t' /\ Y = firstn (List.length Y) Y'.
Proof.
  intros E E' Hle.
  destruct (integrate_success _ _ _ _ _ _ _ E)
    as ((Hdt & Ht & _) & _ & Et & Hl & H0 & Htraj).
  destruct (integrate_success _ _ _ _ _ _ _ E')
    as ((_ & Ht' & _) & _ & Et' & Hl' & H0' & Htraj').
  assert (HN : (List.length t <= List.length t')%nat)
    by (rewrite Et, Et'; now apply grid_length_monotone).
  split; apply nth_error_ext; intros i; rewrite nth_error_firstn.
  - destruct (Nat.ltb_spec i (List.length t)) as [Hi|Hi];
      [|now apply nth_error_None].
    rewrite Et, Et' in *; rewrite !grid_sample by lia; reflexivity.
  - destruct (Nat.ltb_spec i (List.length Y)) as [Hi|Hi];
      [|now apply nth_error_None].
    apply (rk4_chain_agree self dt Y Y' 0 0 Htraj Htraj');
      [congruence | simpl; assumption | simpl; lia].
Qed.

Lemma integrate_prefix_witness :
  exists (t t' : ndarray) (Y Y' : list ndarray),
    result_of (integrate pend_demo y0_demo 1.0 0.5 "rk4") = inr (t, Y) /\
    result_of (integrate pend_demo y0_demo 2.0 0.5 "RK4") = inr (t', Y') /\
    Y = firstn (List.length Y) Y'.
Proof.
  destruct (integrate_rk4 pend_demo y0_demo 1.0 0.5 "rk4") as (Y & E & _);
    [apply valid_demo; lra | reflexivity |].
  destruct (integrate_rk4 pend_demo y0_demo 2.0 0.5 "RK4") as (Y' & E' & _);
    [apply valid_demo; lra | reflexivity |].
  do 2 eexists; exists Y, Y'; split; [exact E | split; [exact E'|]].
  apply (integrate_prefix pend_demo y0_demo 1.0 2.0 0.5 "rk4" "RK4"
           _ _ Y Y' E E'); lra.
Defined.

(** X6. A run can be resumed from any of its rows: integrating from row
    [k] with the same step reproduces the rows that follow [k]. *)
Theorem integrate_restart (self : DoublePendulum) (y0 yk : ndarray)
  (t_max t_max' dt : R) (method method' : string)
  (t t' : ndarray) (Y Y' : list ndarray) (k : nat) :
  result_of (integrate self y0 t_max dt method) = inr (t, Y) ->
  nth_error Y k = Some yk ->
  result_of (integrate self yk t_max' dt method') = inr (t', Y') ->
  forall j : nat,
    (k + j < List.length Y)%nat -> (j < List.length Y')%nat ->
    nth_error Y' j = nth_error Y (k + j).
Proof.
  intros E Ek E' j Hj Hj'.
  destruct (integrate_success _ _ _ _ _ _ _ E) as (_ & _ & _ & _ & _ & Htraj).
  destruct (integrate_success _ _ _ _ _ _ _ E')
    as (_ & _ & _ & _ & H0' & Htraj').
  symmetry.
  apply (rk4_chain_agree self dt Y Y' k 0 Htraj Htraj');
    [congruence | assumption | simpl; assumption].
Qed.

Lemma integrate_restart_witness :
  exists (t t' yk : ndarray) (Y Y' : list ndarray),
    result_of (integrate pend_demo y0_demo 1.0 0.5 "rk4") = inr (t, Y) /\
    nth_error Y 1 = Some yk /\
    result_of (integrate pend_demo yk 1.0 0.5 "rk4") = inr (t', Y') /\
    nth_error Y' 1 = nth_error Y 2.
Proof.
  destruct (integrate_rk4_rows4 pend_demo y0_demo 1.0 0.5 "rk4")
    as (Y & E & Hrows); [apply valid_demo; lra | reflexivity |].
  destruct (integrate_success _ _ _ _ _ _ _ E) as (_ & _ & _ & Hl & _).
  rewrite grid_length_1_05 in Hl.
  destruct (nth_error Y 1) as [yk|] eqn:Ek;
    [|apply nth_error_None in Ek; lia].
  assert (Hv : valid_args yk 1.0 0.5).
  { repeat split; try lra; unfold shape; now rewrite (Hrows _ _ Ek). }
  destruct (integrate_rk4 pend_demo yk 1.0 0.5 "rk4" Hv eq_refl)
    as (Y' & E' & Hl' & _).
  rewrite grid_length_1_05 in Hl'.
  exists (arange 0.0 (1.0 + 0.5 / 2) 0.5), (arange 0.0 (1.0 + 0.5 / 2) 0.5),
    yk, Y, Y'.
  split; [exact E | split; [exact Ek | split; [exact E'|]]].
  apply (integrate_restart pend_demo y0_demo yk 1.0 1.0 0.5 "rk4" "rk4"
           _ _ Y Y' 1 E Ek E' 1); lia.
Defined.

(** ** Symmetries and rest states of the equations *)




Lemma denom_spec_neg (self : DoublePendulum) (theta1 theta2 : R) :
  denom1_spec self (- theta1) (- theta2) = denom1_spec self theta1 theta2 /\
  denom2_spec self (- theta1) (- theta2) = denom2_spec self theta1 theta2.
Proof.
  unfold denom1_spec, denom2_spec.
  replace (- theta1 - - theta2) with (- (theta1 - theta2)) by ring.
  rewrite sin_neg; split; ring.
Qed.

Lemma num_spec_neg (self : DoublePendulum) (theta1 theta2 omega1 omega2 : R) :
  num1_spec self (- theta1) (- theta2) (- omega1) (- omega2)
  = - num1_spec self theta1 theta2 omega1 omega2 /\
  num2_spec self (- theta1) (- theta2) (- omega1) (- omega2)
  = - num2_spec self theta1 theta2 omega1 omega2.
Proof.
  unfold num1_spec, num2_spec.
  replace (- theta1 - - theta2) with (- (theta1 - theta2)) by ring.
  rewrite !sin_neg, !cos_neg; split; ring.
Qed.

Lemma derivatives_neg4 (self : DoublePendulum)
  (theta1 theta2 omega1 omega2 : R) (d : ndarray) :
  derivatives self [theta1; theta2; omega1; omega2] = inr d ->
  derivatives self [- theta1; - theta2; - omega1; - omega2] = inr (vneg d).
Proof.
  destruct (denom_spec_neg self theta1 theta2) as [Hd1 Hd2].
  destruct (num_spec_neg self theta1 theta2 omega1 omega2) as [Hn1 Hn2].
  destruct (degenerate_dec self theta1 theta2) as [Hdeg|Hreg].
  - rewrite derivatives_degenerate by assumption; intros [= <-].
    rewrite derivatives_degenerate
      by (unfold degenerate; rewrite Hd1, Hd2; exact Hdeg).
    simpl; rewrite Ropp_0; reflexivity.
  - rewrite derivatives_regular by assumption; intros [= <-].
    rewrite derivatives_regular
      by (unfold degenerate; rewrite Hd1, Hd2; exact Hreg).
    rewrite Hd1, Hd2, Hn1, Hn2; simpl; unfold Rdiv.
    rewrite !Ropp_mult_distr_l; reflexivity.
Qed.

Lemma derivatives_vneg (self : DoublePendulum) (state d : ndarray) :
  derivatives self state = inr d ->
  derivatives self (vneg state) = inr (vneg d).
Proof.
  destruct state as [|a [|b [|c [|e [|f s]]]]]; try discriminate.
  apply derivatives_neg4.
Qed.

(** X8. The equations are mirror symmetric: negating the four components
    of a state negates the four components of its derivative. *)
Theorem derivatives_odd (self : DoublePendulum) (state : ndarray) :
  derivatives self (vneg state)
  = match derivatives self state with
    | inr d => inr (vneg d)
    | inl e => inl e
    end.
Proof.
  destruct state as [|a [|b [|c [|x [|y s]]]]]; try reflexivity.
  destruct (derivatives_first_two self a b c x) as (a1 & a2 & E).
  rewrite E; apply (derivatives_neg4 self a b c x); exact E.
Qed.

Lemma vneg_vadd (a b : ndarray) : vneg (a +v b) = vneg a +v vneg b.
Proof.
  revert b; induction a as [|x a IH]; intros [|y b]; simpl; auto.
  rewrite <- IH; f_equal; ring.
Qed.

Lemma vneg_vscale (c : R) (a : ndarray) : vneg (c *v a) = c *v vneg a.
Proof.
  unfold vneg, vscale; rewrite !map_map; apply map_ext; intros x; ring.
Qed.

Lemma rk4_update_vneg (self : DoublePendulum) (dt : R) (y yn : ndarray) :
  rk4_update_spec self dt y yn ->
  rk4_update_spec self dt (vneg y) (vneg yn).
Proof.
  intros (k1 & k2 & k3 & k4 & E1 & E2 & E3 & E4 & ->).
  exists (vneg k1), (vneg k2), (vneg k3), (vneg k4).
  apply derivatives_vneg in E1, E2, E3, E4.
  rewrite vneg_vadd, vneg_vscale in E2, E3, E4.
  repeat split; try assumption.
  now rewrite !vneg_vadd, !vneg_vscale, !vneg_vadd, !vneg_vscale.
Qed.

(** X9. The integrator keeps the mirror symmetry: started from the negated
    state, [integrate] returns the same grid and the negated rows. *)
Theorem integrate_mirror (self : DoublePendulum) (y0 : ndarray)
  (t_max dt : R) (method : string)
  (t t' : ndarray) (Y Y' : list ndarray) :
  result_of (integrate self y0 t_max dt method) = inr (t, Y) ->
  result_of (integrate self (vneg y0) t_max dt method) = inr (t', Y') ->
  t' = t /\ Y' = map vneg Y.
Proof.
  intros E E'.
  destruct (integrate_success _ _ _ _ _ _ _ E)
    as (_ & _ & Et & Hl & H0 & Htraj).
  destruct (integrate_success _ _ _ _ _ _ _ E')
    as (_ & _ & Et' & Hl' & H0' & Htraj').
  split; [congruence|].
  assert (HlY : List.length Y' = List.length Y) by congruence.
  apply nth_error_ext; intros i; rewrite nth_error_map.
  destruct (Nat.lt_ge_cases i (List.length Y)) as [Hi|Hi].
  - induction i as [|i IH].
    + now rewrite H0, H0'.
    + specialize (IH ltac:(lia)).
      destruct (Htraj i ltac:(lia)) as (yi & yn & Ei & En & Hu).
      destruct (Htraj' i ltac:(lia)) as (yi' & yn' & Ei' & En' & Hu').
      rewrite Ei, Ei' in IH; simpl in IH; inversion IH; subst yi'.
      rewrite <- Nat.add_1_r, En, En'; simpl; f_equal.
      eapply rk4_update_functional; [exact Hu' | now apply rk4_update_vneg].
  - assert (E1 : nth_error Y i = None) by now apply nth_error_None.
    assert (E2 : nth_error Y' i = None) by (apply nth_error_None; lia).
    now rewrite E1, E2.
Qed.

Lemma integrate_mirror_witness :
  exists (t t' : ndarray) (Y Y' : list ndarray),
    result_of (integrate pend_demo y0_demo 1.0 0.5 "rk4") = inr (t, Y) /\
    result_of (integrate pend_demo (vneg y0_demo) 1.0 0.5 "rk4")
    = inr (t', Y') /\
    Y' = map vneg Y.
Proof.
  destruct (integrate_rk4 pend_demo y0_demo 1.0 0.5 "rk4") as (Y & E & _);
    [apply valid_demo; lra | reflexivity |].
  destruct (integrate_rk4 pend_demo (vneg y0_demo) 1.0 0.5 "rk4")
    as (Y' & E' & _); [repeat split; lra | reflexivity |].
  do 2 eexists; exists Y, Y'; split; [exact E | split; [exact E'|]].
  apply (integrate_mirror pend_demo y0_demo 1.0 0.5 "rk4" _ _ Y Y' E E').
Defined.

Lemma derivatives_at_rest (self : DoublePendulum) :
  derivatives self [0; 0; 0; 0] = inr [0; 0; 0; 0].
Proof.
  assert (Hs : sin (0 - 0) = 0) by (rewrite Rminus_diag; apply sin_0).
  destruct (degenerate_dec self 0 0) as [Hdeg|Hreg].
  - now rewrite derivatives_degenerate.
  - rewrite derivatives_regular by assumption.
    unfold num1_spec, num2_spec; rewrite Hs, sin_0.
    repeat f_equal; unfold Rdiv; ring.
Qed.

Lemma rk4_update_at_rest (self : DoublePendulum) (dt : R) (yn : ndarray) :
  rk4_update_spec self dt [0; 0; 0; 0] yn -> yn = [0; 0; 0; 0].
Proof.
  pose proof (derivatives_at_rest self) as Hrest.
  intros (k1 & k2 & k3 & k4 & E1 & E2 & E3 & E4 & ->).
  assert (Hsame : forall c : R,
            [0; 0; 0; 0] +v c *v [0; 0; 0; 0] = [0; 0; 0; 0])
    by (intros c; simpl; repeat f_equal; ring).
  rewrite Hrest in E1; inversion E1; subst k1.
  rewrite Hsame, Hrest in E2; inversion E2; subst k2.
  rewrite Hsame, Hrest in E3; inversion E3; subst k3.
  rewrite Hsame, Hrest in E4; inversion E4; subst k4.
  simpl; repeat f_equal; ring.
Qed.

(** X10. The pendulum hanging at rest stays at rest, for every model,
    horizon and step: at the state (0, 0, 0, 0) the derivative is zero,
    and every row of the trajectory returned by [integrate] is
    (0, 0, 0, 0). *)
Theorem integrate_rest_state (self : DoublePendulum)
  (t_max dt : R) (method : string) (t : ndarray) (Y : list ndarray) :
  result_of (integrate self [0; 0; 0; 0] t_max dt method) = inr (t, Y) ->
  derivatives self [0; 0; 0; 0] = inr [0; 0; 0; 0] /\
  forall (i : nat) (row : ndarray),
    nth_error Y i = Some row -> row = [0; 0; 0; 0].
Proof.
  intros E; split; [apply derivatives_at_rest|].
  destruct (integrate_success _ _ _ _ _ _ _ E)
    as (_ & _ & _ & _ & H0 & Htraj).
  induction i as [|i IH]; intros row Hrow.
  - congruence.
  - assert (Hi : (i + 1 < List.length Y)%nat)
      by (rewrite Nat.add_1_r; apply nth_error_Some; congruence).
    destruct (Htraj i Hi) as (yi & yn & Ei & En & Hu).
    rewrite (IH yi Ei) in Hu.
    apply rk4_update_at_rest in Hu.
    rewrite <- Nat.add_1_r, En in Hrow; congruence.
Qed.

Lemma integrate_rest_state_witness :
  exists (t : ndarray) (Y : list ndarray),
    result_of (integrate pend_demo [0; 0; 0; 0] 1.0 0.5 "rk4")
    = inr (t, Y) /\
    nth_error Y 2 = Some [0; 0; 0; 0].
Proof.
  destruct (integrate_rk4 pend_demo [0; 0; 0; 0] 1.0 0.5 "rk4")
    as (Y & E & Hl & _); [repeat split; lra | reflexivity |].
  rewrite grid_length_1_05 in Hl.
  eexists; exists Y; split; [exact E|].
  destruct (nth_error Y 2) as [row|] eqn:Er;
    [|apply nth_error_None in Er; lia].
  f_equal.
  apply (proj2 (integrate_rest_state pend_demo 1.0 0.5 "rk4" _ Y E)
           2%nat row Er).
Defined.

(** ** When the guard can fire *)

Lemma init_inversion (l1 l2 a1 a2 g0 : R) (self : DoublePendulum) :
  __init__ l1 l2 a1 a2 g0 = inr self ->
  0 < l1 /\ 0 < l2 /\ 0 < a1 /\ 0 < a2 /\
  self = mkDoublePendulum l1 l2 a1 a2 g0.
Proof.
  unfold __init__.
  destruct (Rleb l1 0 || Rleb l2 0) eqn:E1; [discriminate|].
  destruct (Rleb a1 0 || Rleb a2 0) eqn:E2; [discriminate|].
  apply orb_false_iff in E1, E2; destruct E1 as [E1 E1'], E2 as [E2 E2'].
  apply Rleb_false in E1, E1', E2, E2'.
  intros [= <-]; auto 6.
Qed.

Lemma denom_lower_bound (self : DoublePendulum) (theta1 theta2 : R) :
  0 < L1 self -> 0 < L2 self -> 0 < m2 self ->
  L1 self * m1 self <= denom1_spec self theta1 theta2 /\
  L2 self * m1 self <= denom2_spec self theta1 theta2.
Proof.
  intros H1 H2 H3; unfold denom1_spec, denom2_spec.
  pose proof (pow2_ge_0 (sin (theta1 - theta2))) as Hsq.
  assert (Hm : 0 <= m2 self * sin (theta1 - theta2) ^ 2)
    by (apply Rmult_le_pos; lra).
  split; rewrite Rmult_plus_distr_l;
    [assert (0 <= L1 self * (m2 self * sin (theta1 - theta2) ^ 2))
     | assert (0 <= L2 self * (m2 self * sin (theta1 - theta2) ^ 2))];
    try (apply Rmult_le_pos; lra); lra.
Qed.

(** X11. For a model accepted by [__init__] both denominators are positive
    at every state, so no division by zero can occur; and the guard fires
    at some state exactly when [L1 * m1] or [L2 * m1] is below 1e-8. *)
Theorem guard_reachability (l1 l2 a1 a2 g0 : R) (self : DoublePendulum) :
  __init__ l1 l2 a1 a2 g0 = inr self ->
  (forall theta1 theta2 : R,
     0 < denom1_spec self theta1 theta2 /\
     0 < denom2_spec self theta1 theta2) /\
  ((exists theta1 theta2 : R, degenerate self theta1 theta2)
   <-> (l1 * a1 < 1e-8 \/ l2 * a1 < 1e-8)).
Proof.
  intros E; apply init_inversion in E.
  destruct E as (H1 & H2 & H3 & H4 & ->).
  assert (Hlow : forall theta1 theta2,
            l1 * a1 <= denom1_spec (mkDoublePendulum l1 l2 a1 a2 g0)
                         theta1 theta2 /\
            l2 * a1 <= denom2_spec (mkDoublePendulum l1 l2 a1 a2 g0)
                         theta1 theta2).
  { intros; apply (denom_lower_bound (mkDoublePendulum l1 l2 a1 a2 g0));
      assumption. }
  split; [|split].
  - intros theta1 theta2; destruct (Hlow theta1 theta2); split; nra.
  - intros (theta1 & theta2 & Hdeg); unfold degenerate in Hdeg.
    destruct (Hlow theta1 theta2) as [Hd1 Hd2].
    rewrite !Rabs_right in Hdeg by nra; lra.
  - intros H; exists 0, 0; unfold degenerate, denom1_spec, denom2_spec.
    simpl; rewrite Rminus_diag, sin_0.
    rewrite !Rabs_right by nra; lra.
Qed.

Lemma guard_reachability_witness :
  (exists theta1 theta2 : R,
     degenerate (mkDoublePendulum 1e-9 1 1 1 9.81) theta1 theta2) /\
  forall theta1 theta2 : R, 0 < denom1_spec pend_demo theta1 theta2.
Proof.
  split.
  - apply (proj2 (guard_reachability 1e-9 1 1 1 9.81 _
                    (init_positive 1e-9 1 1 1 9.81 ltac:(lra) ltac:(lra)
                       ltac:(lra) ltac:(lra)))).
    left; lra.
  - intros theta1 theta2.
    apply (proj1 (guard_reachability 2.0 2.0 1.0 3.0 9.81 _
                    (init_positive 2.0 2.0 1.0 3.0 9.81 ltac:(lra)
                       ltac:(lra) ltac:(lra) ltac:(lra)))).
Defined.

(** X12. [derivatives] returns exactly on the states of four components,
    and then its result has four components; on any other length the
    unpacking of the state raises [ValueError]. *)
Theorem derivatives_needs_four (self : DoublePendulum) (state : ndarray) :
  (List.length state = 4%nat ->
   exists d : ndarray,
     derivatives self state = inr d /\ List.length d = 4%nat) /\
  (List.length state <> 4%nat ->
   exists msg : string, derivatives self state = inl (ValueError msg)).
Proof.
  split; [apply derivatives_length|].
  destruct state as [|a [|b [|c [|x [|y s]]]]]; simpl; intros H;
    try (eexists; reflexivity).
  lia.
Qed.

Lemma derivatives_needs_four_witness :
  (exists d : ndarray,
     derivatives pend_demo y0_demo = inr d /\ List.length d = 4%nat) /\
  (exists msg : string, derivatives pend_demo [0; 0; 0] = inl (ValueError msg)).
Proof.
  split.
  - apply (proj1 (derivatives_needs_four pend_demo y0_demo)); reflexivity.
  - apply (proj2 (derivatives_needs_four pend_demo [0; 0; 0]));
      simpl; lia.
Defined.

(** * Properties of the display *)

(** ** One frame of the animation *)

Lemma getitem2_ok (Y : list ndarray) (i j : nat) (row : ndarray) :
  nth_error Y i = Some row -> (j < List.length row)%nat ->
  exists x : R, nth_error row j = Some x /\ getitem2 Y i j = inr x.
Proof.
  intros Hi Hj; unfold getitem2; rewrite Hi.
  destruct (nth_error row j) as [x|] eqn:Ex;
    [eauto | apply nth_error_None in Ex; lia].
Qed.

Lemma animate_frame_inversion (Y : list ndarray) (l1 l2 : R) (i : nat)
  (xs ys : list R) :
  animate_frame Y l1 l2 i = inr (xs, ys) ->
  exists theta1_i theta2_i : R,
    getitem2 Y i 0 = inr theta1_i /\ getitem2 Y i 1 = inr theta2_i /\
    xs = [0; l1 * sin theta1_i; l1 * sin theta1_i + l2 * sin theta2_i] /\
    ys = [0; - l1 * cos theta1_i;
          - l1 * cos theta1_i - l2 * cos theta2_i].
Proof.
  unfold animate_frame, and_then.
  destruct (getitem2 Y i 0) as [e|a]; [discriminate|].
  destruct (getitem2 Y i 1) as [e|b]; [discriminate|].
  intros [= <- <-]; eauto 6.
Qed.

Lemma pendulum_point_bounds (l1 l2 s1 s2 : R) :
  0 <= l1 -> 0 <= l2 -> -1 <= s1 <= 1 -> -1 <= s2 <= 1 ->
  - (l1 + l2) <= l1 * s1 + l2 * s2 <= l1 + l2 /\
  - l1 <= l1 * s1 <= l1.
Proof.
  intros H1 H2 [Ha Hb] [Hc Hd].
  assert (0 <= l1 * (1 - s1)) by (apply Rmult_le_pos; lra).
  assert (0 <= l1 * (1 + s1)) by (apply Rmult_le_pos; lra).
  assert (0 <= l2 * (1 - s2)) by (apply Rmult_le_pos; lra).
  assert (0 <= l2 * (1 + s2)) by (apply Rmult_le_pos; lra).
  lra.
Qed.

(** X13. A frame that is drawn shows two rigid links: the pivot is at the
    origin, the first bob at distance [L1] from it and the second bob at
    distance [L2] from the first. *)
Theorem animate_frame_rigid (Y : list ndarray) (l1 l2 : R) (i : nat)
  (xs ys : list R) :
  animate_frame Y l1 l2 i = inr (xs, ys) ->
  exists x1 y1 x2 y2 : R,
    xs = [0; x1; x2] /\ ys = [0; y1; y2] /\
    x1 ^ 2 + y1 ^ 2 = l1 ^ 2 /\
    (x2 - x1) ^ 2 + (y2 - y1) ^ 2 = l2 ^ 2.
Proof.
  intros E.
  destruct (animate_frame_inversion Y l1 l2 i xs ys E)
    as (a & b & _ & _ & -> & ->).
  do 4 eexists; split; [reflexivity | split; [reflexivity|]].
  pose proof (sin2_cos2 a) as Ha; pose proof (sin2_cos2 b) as Hb.
  unfold Rsqr in Ha, Hb; split.
  - replace ((l1 * sin a) ^ 2 + (- l1 * cos a) ^ 2)
      with (l1 ^ 2 * (sin a * sin a + cos a * cos a)) by ring.
    rewrite Ha; ring.
  - replace ((l1 * sin a + l2 * sin b - l1 * sin a) ^ 2
             + (- l1 * cos a - l2 * cos b - - l1 * cos a) ^ 2)
      with (l2 ^ 2 * (sin b * sin b + cos b * cos b)) by ring.
    rewrite Hb; ring.
Qed.

Lemma animate_frame_rigid_witness :
  exists x1 y1 x2 y2 : R,
    [0; 2 * sin 0; 2 * sin 0 + 1 * sin 0] = [0; x1; x2] /\
    [0; - 2 * cos 0; - 2 * cos 0 - 1 * cos 0] = [0; y1; y2] /\
    x1 ^ 2 + y1 ^ 2 = 2 ^ 2 /\
    (x2 - x1) ^ 2 + (y2 - y1) ^ 2 = 1 ^ 2.
Proof.
  apply (animate_frame_rigid [[0; 0; 0; 0]] 2 1 0); reflexivity.
Defined.

Lemma frame_points_inside (Y : list ndarray) (l1 l2 : R) (i : nat)
  (xs ys : list R) :
  0 <= l1 -> 0 <= l2 -> 0 < l1 + l2 ->
  animate_frame Y l1 l2 i = inr (xs, ys) ->
  forall c : R, In c xs \/ In c ys ->
    fst (axes_limits l1 l2) < c < snd (axes_limits l1 l2).
Proof.
  intros H1 H2 Hpos E c Hc.
  destruct (animate_frame_inversion Y l1 l2 i xs ys E)
    as (a & b & _ & _ & -> & ->).
  pose proof (SIN_bound a) as Hsa; pose proof (SIN_bound b) as Hsb.
  pose proof (COS_bound a) as Hca; pose proof (COS_bound b) as Hcb.
  destruct (pendulum_point_bounds l1 l2 (sin a) (sin b) H1 H2 Hsa Hsb)
    as [Hx2 Hx1].
  destruct (pendulum_point_bounds l1 l2 (cos a) (cos b) H1 H2 Hca Hcb)
    as [Hy2 Hy1].
  unfold axes_limits; simpl fst; simpl snd.
  destruct Hc as [Hc|Hc]; simpl in Hc;
    destruct Hc as [<-|[<-|[<-|[]]]]; lra.
Qed.

(** X14. With non-negative lengths that are not both zero, every point of
    a drawn frame lies strictly inside the limits given to the axes, in
    both directions: the pendulum never leaves the picture. *)
Theorem animate_frame_within_axes (Y : list ndarray) (l1 l2 : R) (i : nat)
  (xs ys : list R) :
  0 <= l1 -> 0 <= l2 -> 0 < l1 + l2 ->
  animate_frame Y l1 l2 i = inr (xs, ys) ->
  forall c : R, In c xs \/ In c ys ->
    fst (axes_limits l1 l2) < c < snd (axes_limits l1 l2).
Proof. apply frame_points_inside. Qed.

Lemma animate_frame_within_axes_witness :
  fst (axes_limits 2 1) < 2 * sin 0 + 1 * sin 0 < snd (axes_limits 2 1).
Proof.
  apply (animate_frame_within_axes [[0; 0; 0; 0]] 2 1 0
           [0; 2 * sin 0; 2 * sin 0 + 1 * sin 0]
           [0; - 2 * cos 0; - 2 * cos 0 - 1 * cos 0]);
    try lra; [reflexivity | left; simpl; auto].
Defined.

(** ** A run started from the window *)

Lemma frames_draw (Y : list ndarray) (l1 l2 : R) (i : nat) :
  rows4 Y -> (i < List.length Y)%nat ->
  exists xs ys : list R, animate_frame Y l1 l2 i = inr (xs, ys).
Proof.
  intros Hrows Hi.
  destruct (nth_error Y i) as [row|] eqn:Er;
    [|apply nth_error_None in Er; lia].
  pose proof (Hrows _ _ Er) as Hlen.
  destruct (getitem2_ok Y i 0 row Er ltac:(lia)) as (a & _ & Ea).
  destruct (getitem2_ok Y i 1 row Er ltac:(lia)) as (b & _ & Eb).
  unfold animate_frame; rewrite Ea, Eb; simpl; eauto.
Qed.

Lemma frames_stop (Y : list ndarray) (l1 l2 : R) (i : nat) :
  (List.length Y <= i)%nat ->
  exists msg : string, animate_frame Y l1 l2 i = inl (IndexError msg).
Proof.
  intros Hi; apply nth_error_None in Hi.
  unfold animate_frame, getitem2; rewrite Hi; simpl; eauto.
Qed.

Lemma py_int_nonneg (x : R) : 0 <= x -> py_int x = Zfloor x.
Proof. intros H; unfold py_int; apply Rleb_true in H; now rewrite H. Qed.

Lemma py_int_near (x : R) :
  0 <= x -> (0 <= py_int x)%Z /\ Rabs (IZR (py_int x) - x) < 1.
Proof.
  intros H; rewrite (py_int_nonneg x H).
  pose proof (Zfloor_bound x) as [Hlo Hhi].
  split; [apply Zfloor_lub; exact H|].
  apply Rabs_def1; lra.
Qed.

Lemma log_bind_ret {A B : Type} (c : M A) (f : A -> B) :
  log_of (bind c (fun a => ret (f a))) = log_of c.
Proof. destruct c as [log [e|a]]; simpl; rewrite ?app_nil_r; reflexivity. Qed.

Lemma run_simulation_init_fails
  (l1 l2 a1 a2 th1 th2 om1 om2 t_max dt : R) (e : exn) :
  __init__ l1 l2 a1 a2 g_default = inl e ->
  run_simulation l1 l2 a1 a2 th1 th2 om1 om2 t_max dt = ([], inl e).
Proof. intros E; unfold run_simulation; rewrite E; reflexivity. Qed.

Lemma run_simulation_after_init
  (l1 l2 a1 a2 th1 th2 om1 om2 t_max dt : R) (pend : DoublePendulum) :
  __init__ l1 l2 a1 a2 g_default = inr pend ->
  log_of (run_simulation l1 l2 a1 a2 th1 th2 om1 om2 t_max dt)
  = ev_array [th1; th2; om1; om2]
    :: log_of (integrate pend [th1; th2; om1; om2] t_max dt "rk4") /\
  result_of (run_simulation l1 l2 a1 a2 th1 th2 om1 om2 t_max dt)
  = match result_of (integrate pend [th1; th2; om1; om2] t_max dt "rk4") with
    | inl e => inl e
    | inr r =>
        inr (mkSimulation (fst r) (snd r)
               (mkAnimation (axes_limits l1 l2) (axes_limits l1 l2)
                  (List.length (fst r)) (py_int (1000 * dt))
                  (animate_frame (snd r) l1 l2)))
    end.
Proof.
  intros E; unfold run_simulation; rewrite E; cbv zeta; split.
  - rewrite (log_bind_inr _ _ pend) by reflexivity.
    rewrite (log_bind_inr _ _ tt) by reflexivity.
    rewrite log_bind_ret; reflexivity.
  - rewrite (result_bind_inr _ _ pend) by reflexivity.
    rewrite (result_bind_inr _ _ tt) by reflexivity.
    rewrite result_bind.
    destruct (result_of (integrate pend [th1; th2; om1; om2] t_max dt "rk4"));
      reflexivity.
Qed.

Lemma init_fails (l1 l2 a1 a2 g0 : R) (e : exn) :
  __init__ l1 l2 a1 a2 g0 = inl e ->
  (l1 <= 0 \/ l2 <= 0 \/ a1 <= 0 \/ a2 <= 0) /\
  exists msg : string, e = ValueError msg.
Proof.
  intros E; split.
  - destruct (Rle_dec l1 0); [tauto|]. destruct (Rle_dec l2 0); [tauto|].
    destruct (Rle_dec a1 0); [tauto|]. destruct (Rle_dec a2 0); [tauto|].
    rewrite init_positive in E by lra; discriminate E.
  - unfold __init__ in E.
    destruct (Rleb l1 0 || Rleb l2 0); [inversion E; eauto|].
    destruct (Rleb a1 0 || Rleb a2 0); [inversion E; eauto|].
    discriminate E.
Qed.

Lemma run_simulation_ok (l1 l2 a1 a2 th1 th2 om1 om2 t_max dt : R) :
  0 < l1 -> 0 < l2 -> 0 < a1 -> 0 < a2 -> 0 < t_max -> 0 < dt ->
  exists Y : list ndarray,
    result_of (integrate (mkDoublePendulum l1 l2 a1 a2 g_default)
                 [th1; th2; om1; om2] t_max dt "rk4")
    = inr (arange 0.0 (t_max + dt / 2) dt, Y) /\
    rows4 Y /\
    result_of (run_simulation l1 l2 a1 a2 th1 th2 om1 om2 t_max dt)
    = inr (mkSimulation (arange 0.0 (t_max + dt / 2) dt) Y
             (mkAnimation (axes_limits l1 l2) (axes_limits l1 l2)
                (List.length (arange 0.0 (t_max + dt / 2) dt))
                (py_int (1000 * dt)) (animate_frame Y l1 l2))).
Proof.
  intros H1 H2 H3 H4 Ht Hdt.
  destruct (integrate_rk4_rows4 (mkDoublePendulum l1 l2 a1 a2 g_default)
              [th1; th2; om1; om2] t_max dt "rk4")
    as (Y & E & Hrows); [repeat split; assumption | reflexivity |].
  exists Y; split; [exact E | split; [exact Hrows|]].
  destruct (run_simulation_after_init l1 l2 a1 a2 th1 th2 om1 om2 t_max dt
              _ (init_positive l1 l2 a1 a2 g_default H1 H2 H3 H4))
    as [_ ->].
  rewrite E; reflexivity.
Qed.

(** X15. With positive lengths, masses, horizon and step, [run_simulation]
    does not raise.  It stores the pair returned by [integrate] for the
    model with the default [g]; both axes get the limits
    [-1.1 (L1 + L2)] and [1.1 (L1 + L2)]; the animation has one frame per
    sample and per row, the frame function returns for each of these
    frames, and the interval is a whole number of milliseconds, not
    negative and less than one millisecond away from [1000 dt]. *)
Theorem run_simulation_succeeds
  (l1 l2 a1 a2 th1 th2 om1 om2 t_max dt : R) :
  0 < l1 -> 0 < l2 -> 0 < a1 -> 0 < a2 -> 0 < t_max -> 0 < dt ->
  exists sim : simulation,
    result_of (run_simulation l1 l2 a1 a2 th1 th2 om1 om2 t_max dt)
    = inr sim /\
    result_of (integrate (mkDoublePendulum l1 l2 a1 a2 9.81)
                 [th1; th2; om1; om2] t_max dt "rk4")
    = inr (sim_t sim, sim_Y sim) /\
    ani_xlim (sim_ani sim) = (- (l1 + l2) * 1.1, (l1 + l2) * 1.1) /\
    ani_ylim (sim_ani sim) = (- (l1 + l2) * 1.1, (l1 + l2) * 1.1) /\
    ani_frames (sim_ani sim) = List.length (sim_t sim) /\
    ani_frames (sim_ani sim) = List.length (sim_Y sim) /\
    (0 <= ani_interval (sim_ani sim))%Z /\
    Rabs (IZR (ani_interval (sim_ani sim)) - 1000 * dt) < 1 /\
    forall i : nat, (i < ani_frames (sim_ani sim))%nat ->
      exists xs ys : list R, ani_draw (sim_ani sim) i = inr (xs, ys).
Proof.
  intros H1 H2 H3 H4 Ht Hdt.
  destruct (run_simulation_ok l1 l2 a1 a2 th1 th2 om1 om2 t_max dt
              H1 H2 H3 H4 Ht Hdt) as (Y & E & Hrows & Erun).
  destruct (integrate_success _ _ _ _ _ _ _ E) as (_ & _ & _ & Hl & _).
  destruct (py_int_near (1000 * dt)) as [Hi0 Hi1]; [lra|].
  eexists; split; [exact Erun|]; simpl.
  split; [exact E|]; do 3 (split; [reflexivity|]).
  split; [now rewrite Hl|]; split; [exact Hi0|]; split; [exact Hi1|].
  intros i Hi; apply frames_draw; [exact Hrows | lia].
Qed.

Lemma run_simulation_succeeds_witness :
  exists sim : simulation,
    result_of (run_simulation 2.0 2.0 1.0 3.0 (PI / 2) (PI / 2) 3.0 0.0
                 1.0 0.5) = inr sim /\
    ani_frames (sim_ani sim) = 3%nat.
Proof.
  destruct (run_simulation_succeeds 2.0 2.0 1.0 3.0 (PI / 2) (PI / 2)
              3.0 0.0 1.0 0.5) as (sim & E & Ei & _ & _ & Hf & _); try lra.
  exists sim; split; [exact E|].
  destruct (integrate_success _ _ _ _ _ _ _ Ei) as (_ & _ & Et & _).
  rewrite Hf, Et; exact grid_length_1_05.
Defined.

(** X16. [run_simulation] raises exactly when one of the two lengths, the
    two masses, the step or the horizon is not positive, and the exception
    is then a [ValueError]; the initial angles and velocities never make
    it fail.  A length or a mass that is not positive stops the run in the
    constructor, before the array of the initial state is built.  With
    positive lengths and masses, a step or a horizon that is not positive
    stops it in [integrate]: the array of the initial state is the only
    array built, and no derivative is evaluated. *)
Theorem run_simulation_errors
  (l1 l2 a1 a2 th1 th2 om1 om2 t_max dt : R) :
  ((exists e : exn,
      result_of (run_simulation l1 l2 a1 a2 th1 th2 om1 om2 t_max dt)
      = inl e)
   <-> (l1 <= 0 \/ l2 <= 0 \/ a1 <= 0 \/ a2 <= 0 \/ dt <= 0 \/ t_max <= 0))
  /\
  (forall e : exn,
     result_of (run_simulation l1 l2 a1 a2 th1 th2 om1 om2 t_max dt)
     = inl e ->
     exists msg : string, e = ValueError msg) /\
  (l1 <= 0 \/ l2 <= 0 \/ a1 <= 0 \/ a2 <= 0 ->
   log_of (run_simulation l1 l2 a1 a2 th1 th2 om1 om2 t_max dt) = []) /\
  (0 < l1 -> 0 < l2 -> 0 < a1 -> 0 < a2 -> dt <= 0 \/ t_max <= 0 ->
   log_of (run_simulation l1 l2 a1 a2 th1 th2 om1 om2 t_max dt)
   = [ev_array [th1; th2; om1; om2]]).
Proof.
  destruct (__init__ l1 l2 a1 a2 g_default) as [e0|pend] eqn:Einit.
  - destruct (init_fails _ _ _ _ _ _ Einit) as [Hbad [msg ->]].
    rewrite (run_simulation_init_fails _ _ _ _ th1 th2 om1 om2 t_max dt
               _ Einit).
    unfold result_of, log_of; simpl.
    split; [split; [tauto | eauto]|].
    split; [intros e [= <-]; eauto|].
    split; [reflexivity|].
    intros H1 H2 H3 H4; lra.
  - destruct (run_simulation_after_init _ _ _ _ th1 th2 om1 om2 t_max dt
                _ Einit) as [-> ->].
    apply init_inversion in Einit; destruct Einit as (H1 & H2 & H3 & H4 & _).
    destruct (valid_args_dec [th1; th2; om1; om2] t_max dt) as [Hv|Hinv].
    + destruct (integrate_rk4 pend [th1; th2; om1; om2] t_max dt "rk4"
                  Hv eq_refl) as (Y & -> & _).
      destruct Hv as (Hdt & Ht & _).
      split; [split; [intros [e E]; discriminate E | lra]|].
      split; [intros e E; discriminate E|].
      split; intros; lra.
    + destruct (integrate_invalid pend [th1; th2; om1; om2] t_max dt
                  "rk4" Hinv) as [msg ->].
      unfold result_of, log_of; simpl.
      split; [split; [intros _ | eauto]|].
      * destruct Hinv as [H|[H|H]]; [tauto | tauto |].
        exfalso; apply H; reflexivity.
      * split; [intros e [= <-]; eauto|].
        split; [intros; lra | reflexivity].
Qed.

Lemma run_simulation_errors_witness :
  (exists e : exn,
     result_of (run_simulation 2.0 2.0 1.0 3.0 0 0 0 0 25.0 0) = inl e) /\
  log_of (run_simulation 2.0 2.0 1.0 3.0 0 0 0 0 25.0 0)
  = [ev_array [0; 0; 0; 0]].
Proof.
  destruct (run_simulation_errors 2.0 2.0 1.0 3.0 0 0 0 0 25.0 0)
    as (Hiff & _ & _ & Hlog).
  split; [apply (proj2 Hiff); do 4 right; left; lra|].
  apply Hlog; lra.
Defined.

(** ** The phase portraits *)

Lemma fold_min_spec (l : list R) (x : R) :
  fold_left Rmin l x <= x /\
  (forall y, In y l -> fold_left Rmin l x <= y) /\
  In (fold_left Rmin l x) (x :: l).
Proof.
  revert x; induction l as [|z l IH]; intros x; simpl.
  - repeat split; [lra | tauto | auto].
  - destruct (IH (Rmin x z)) as (H1 & H2 & H3).
    pose proof (Rmin_l x z); pose proof (Rmin_r x z).
    repeat split.
    + lra.
    + intros y [<-|Hy]; [lra | now apply H2].
    + simpl in H3; destruct H3 as [H3|H3]; [|auto].
      rewrite <- H3; unfold Rmin; destruct (Rle_dec x z); auto.
Qed.

Lemma fold_max_spec (l : list R) (x : R) :
  x <= fold_left Rmax l x /\
  (forall y, In y l -> y <= fold_left Rmax l x) /\
  In (fold_left Rmax l x) (x :: l).
Proof.
  revert x; induction l as [|z l IH]; intros x; simpl.
  - repeat split; [lra | tauto | auto].
  - destruct (IH (Rmax x z)) as (H1 & H2 & H3).
    pose proof (Rmax_l x z); pose proof (Rmax_r x z).
    repeat split.
    + lra.
    + intros y [<-|Hy]; [lra | now apply H2].
    + simpl in H3; destruct H3 as [H3|H3]; [|auto].
      rewrite <- H3; unfold Rmax; destruct (Rle_dec x z); auto.
Qed.

Lemma np_min_spec (a : ndarray) (m : R) :
  np_min a = inr m -> In m a /\ forall y, In y a -> m <= y.
Proof.
  destruct a as [|x l]; simpl; [discriminate|]; intros [= <-].
  destruct (fold_min_spec l x) as (H1 & H2 & H3).
  split; [exact H3 | intros y [<-|Hy]; auto].
Qed.

Lemma np_max_spec (a : ndarray) (m : R) :
  np_max a = inr m -> In m a /\ forall y, In y a -> y <= m.
Proof.
  destruct a as [|x l]; simpl; [discriminate|]; intros [= <-].
  destruct (fold_max_spec l x) as (H1 & H2 & H3).
  split; [exact H3 | intros y [<-|Hy]; auto].
Qed.

Lemma Rneb_true (x y : R) : Rneb x y = true <-> x <> y.
Proof. unfold Rneb; destruct (Req_dec_T x y); split; congruence. Qed.

Lemma Rneb_false (x y : R) : Rneb x y = false <-> x = y.
Proof. unfold Rneb; destruct (Req_dec_T x y); split; congruence. Qed.

(** The padded interval around the data of one axis. *)
Lemma padded_limits (a : ndarray) (lo hi : R) :
  np_min a = inr lo -> np_max a = inr hi ->
  let pad := if Rneb hi lo then (hi - lo) * 0.05 else 0.1 in
  (forall x, In x a -> lo - pad < x < hi + pad) /\
  (forall v, (forall x, In x a -> x = v) ->
     (lo - pad, hi + pad) = (v - 0.1, v + 0.1)).
Proof.
  intros Emin Emax pad.
  destruct (np_min_spec a lo Emin) as [Hlo_in Hlo].
  destruct (np_max_spec a hi Emax) as [Hhi_in Hhi].
  assert (Hle : lo <= hi) by (apply Hlo; exact Hhi_in).
  assert (Hpad : 0 < pad).
  { unfold pad; destruct (Rneb hi lo) eqn:En; [|lra].
    apply Rneb_true in En; assert (lo < hi) by lra; lra. }
  split.
  - intros x Hx; specialize (Hlo x Hx); specialize (Hhi x Hx); lra.
  - intros v Hv.
    pose proof (Hv lo Hlo_in) as El; pose proof (Hv hi Hhi_in) as Eh.
    subst lo hi; unfold pad.
    destruct (Rneb v v) eqn:En; [|reflexivity].
    apply Rneb_true in En; congruence.
Qed.

Lemma plot_theta1_vs_theta2_inversion (theta1 theta2 : ndarray)
  (ax : scatter_axes) :
  plot_theta1_vs_theta2 theta1 theta2 = inr ax ->
  exists lo1 hi1 lo2 hi2 : R,
    List.length theta1 = List.length theta2 /\
    np_min theta1 = inr lo1 /\ np_max theta1 = inr hi1 /\
    np_min theta2 = inr lo2 /\ np_max theta2 = inr hi2 /\
    ax = mkScatter
           (lo1 - (if Rneb hi1 lo1 then (hi1 - lo1) * 0.05 else 0.1),
            hi1 + (if Rneb hi1 lo1 then (hi1 - lo1) * 0.05 else 0.1))
           (lo2 - (if Rneb hi2 lo2 then (hi2 - lo2) * 0.05 else 0.1),
            hi2 + (if Rneb hi2 lo2 then (hi2 - lo2) * 0.05 else 0.1))
           theta1 theta2 (seq 0 (List.length theta1)).
Proof.
  unfold plot_theta1_vs_theta2, and_then.
  destruct (shape_eqb (shape theta1) (shape theta2)) eqn:Es;
    [|discriminate].
  apply shape_eqb_true in Es; unfold shape in Es; simpl.
  destruct (np_min theta1) as [e|lo1]; [discriminate|].
  destruct (np_max theta1) as [e|hi1]; [discriminate|].
  destruct (np_min theta2) as [e|lo2]; [discriminate|].
  destruct (np_max theta2) as [e|hi2]; [discriminate|].
  intros [= <-]; exists lo1, hi1, lo2, hi2.
  repeat split; congruence.
Qed.

(** X17. When [plot_theta1_vs_theta2] draws, the limits of each axis
    strictly enclose all the data of that axis, so every point is visible
    and no axis is empty; point [i] is coloured by its index [i]; and for
    a constant array the limits are the value minus and plus 0.1. *)
Theorem plot_theta1_vs_theta2_encloses (theta1 theta2 : ndarray)
  (ax : scatter_axes) :
  plot_theta1_vs_theta2 theta1 theta2 = inr ax ->
  sc_x ax = theta1 /\ sc_y ax = theta2 /\
  sc_c ax = seq 0 (List.length theta1) /\
  (forall x, In x theta1 -> fst (sc_xlim ax) < x < snd (sc_xlim ax)) /\
  (forall y, In y theta2 -> fst (sc_ylim ax) < y < snd (sc_ylim ax)) /\
  fst (sc_xlim ax) < snd (sc_xlim ax) /\
  fst (sc_ylim ax) < snd (sc_ylim ax) /\
  (forall v, (forall x, In x theta1 -> x = v) ->
     sc_xlim ax = (v - 0.1, v + 0.1)) /\
  (forall v, (forall y, In y theta2 -> y = v) ->
     sc_ylim ax = (v - 0.1, v + 0.1)).
Proof.
  intros E.
  destruct (plot_theta1_vs_theta2_inversion _ _ _ E)
    as (lo1 & hi1 & lo2 & hi2 & Hlen & Em1 & EM1 & Em2 & EM2 & ->).
  destruct (padded_limits theta1 lo1 hi1 Em1 EM1) as [Hx Hcx].
  destruct (padded_limits theta2 lo2 hi2 Em2 EM2) as [Hy Hcy].
  destruct (np_min_spec _ _ Em1) as [Hin1 _].
  destruct (np_min_spec _ _ Em2) as [Hin2 _].
  simpl; repeat split; auto;
    try (apply Hx; assumption); try (apply Hy; assumption).
  - destruct (Hx lo1 Hin1); lra.
  - destruct (Hy lo2 Hin2); lra.
Qed.

Lemma plot_theta1_vs_theta2_encloses_witness :
  exists ax : scatter_axes,
    plot_theta1_vs_theta2 [1; 3] [2; 2] = inr ax /\
    fst (sc_xlim ax) < 1 < snd (sc_xlim ax) /\
    sc_ylim ax = (2 - 0.1, 2 + 0.1).
Proof.
  destruct (plot_theta1_vs_theta2 [1; 3] [2; 2]) as [e|ax] eqn:E;
    [discriminate E|].
  exists ax; split; [reflexivity|].
  destruct (plot_theta1_vs_theta2_encloses [1; 3] [2; 2] ax E)
    as (_ & _ & _ & Hx & _ & _ & _ & _ & Hc).
  split; [apply Hx; simpl; auto|].
  apply Hc; simpl; intros y [<-|[<-|[]]]; reflexivity.
Defined.

(** X18. [plot_theta1_vs_theta2] draws exactly when the two arrays have
    the same length and are not empty; arrays of different lengths, and
    two empty arrays, raise [ValueError]. *)
Theorem plot_theta1_vs_theta2_errors (theta1 theta2 : ndarray) :
  ((exists ax : scatter_axes, plot_theta1_vs_theta2 theta1 theta2 = inr ax)
   <-> (List.length theta1 = List.length theta2 /\ theta1 <> [])) /\
  (List.length theta1 <> List.length theta2 \/ theta1 = [] ->
   exists msg : string,
     plot_theta1_vs_theta2 theta1 theta2 = inl (ValueError msg)).
Proof.
  assert (Hbad : List.length theta1 <> List.length theta2 \/ theta1 = [] ->
            exists msg : string,
              plot_theta1_vs_theta2 theta1 theta2 = inl (ValueError msg)).
  { intros H; unfold plot_theta1_vs_theta2.
    destruct (shape_eqb (shape theta1) (shape theta2)) eqn:Es;
      [|eexists; reflexivity].
    apply shape_eqb_true in Es; unfold shape in Es.
    destruct H as [H | ->]; [congruence|].
    simpl; eexists; reflexivity. }
  split; [split|exact Hbad].
  - intros [ax E].
    destruct (plot_theta1_vs_theta2_inversion _ _ _ E)
      as (lo1 & _ & _ & _ & Hlen & Em1 & _).
    split; [exact Hlen | intros ->; discriminate Em1].
  - intros [Hlen Hne]; unfold plot_theta1_vs_theta2.
    assert (Es : shape_eqb (shape theta1) (shape theta2) = true)
      by (apply shape_eqb_true; unfold shape; congruence).
    rewrite Es; simpl.
    destruct theta1 as [|x a]; [congruence|].
    destruct theta2 as [|y b]; [discriminate Hlen|].
    simpl; eexists; reflexivity.
Qed.

Lemma plot_theta1_vs_theta2_errors_witness :
  (exists msg : string,
     plot_theta1_vs_theta2 [1; 3] [2] = inl (ValueError msg)) /\
  (exists msg : string, plot_theta1_vs_theta2 [] [] = inl (ValueError msg)).
Proof.
  split.
  - apply (proj2 (plot_theta1_vs_theta2_errors [1; 3] [2])).
    left; simpl; lia.
  - apply (proj2 (plot_theta1_vs_theta2_errors [] [])).
    right; reflexivity.
Defined.

(** ** The plot buttons after a run *)

Lemma rows4_tail (row : ndarray) (Y : list ndarray) :
  rows4 (row :: Y) -> List.length row = 4%nat /\ rows4 Y.
Proof.
  intros H; split; [apply (H 0%nat); reflexivity|].
  intros j r Hj; apply (H (S j)); exact Hj.
Qed.

Lemma column_ok (Y : list ndarray) (j : nat) :
  rows4 Y -> (j < 4)%nat ->
  exists c : ndarray,
    column Y j = inr c /\ List.length c = List.length Y /\
    forall (i : nat) (row : ndarray),
      nth_error Y i = Some row -> nth_error c i = nth_error row j.
Proof.
  intros Hrows Hj; induction Y as [|row Y IH].
  - exists []; repeat split; intros [|i] row H; discriminate H.
  - destruct (rows4_tail row Y Hrows) as [Hlen Hrows'].
    destruct (IH Hrows') as (c & Ec & Hl & Hn).
    destruct (nth_error row j) as [x|] eqn:Ex;
      [|apply nth_error_None in Ex; lia].
    exists (x :: c); simpl; rewrite Ex, Ec; simpl; repeat split.
    + now rewrite Hl.
    + intros [|i] r Hr; simpl in *; [congruence | now apply Hn].
Qed.

(** X19. After a run the three plot buttons hand the columns of the stored
    array to the plot functions: each of the four columns holds one value
    per sample, value [i] being the component of row [i], so the shape
    tests of the three plot functions pass.  The two curve plots are given
    the pairs (theta1, omega1), (theta2, omega2) and (omega1, omega2); the
    scatter plot is called on (theta1, theta2), and a scatter that is
    drawn holds these two columns with the colour indices [0 .. N-1].
    Before the first run ([self.Y] is [None]) the handlers do nothing. *)
Theorem show_plots_after_run (self : DoublePendulum) (y0 : ndarray)
  (t_max dt : R) (method : string) (t : ndarray) (Y : list ndarray) :
  result_of (integrate self y0 t_max dt method) = inr (t, Y) ->
  (exists theta1 theta2 omega1 omega2 : ndarray,
     column Y 0 = inr theta1 /\ column Y 1 = inr theta2 /\
     column Y 2 = inr omega1 /\ column Y 3 = inr omega2 /\
     shape theta1 = [List.length t] /\ shape theta2 = [List.length t] /\
     shape omega1 = [List.length t] /\ shape omega2 = [List.length t] /\
     (forall (i : nat) (row : ndarray),
        nth_error Y i = Some row ->
        nth_error theta1 i = nth_error row 0 /\
        nth_error theta2 i = nth_error row 1 /\
        nth_error omega1 i = nth_error row 2 /\
        nth_error omega2 i = nth_error row 3) /\
     show_plot_angles_vs_omega (Some Y)
     = inr (Some [(theta1, omega1); (theta2, omega2)]) /\
     show_plot_omega1_omega2 (Some Y) = inr (Some [(omega1, omega2)]) /\
     show_plot_theta1_theta2 (Some Y)
     = and_then (plot_theta1_vs_theta2 theta1 theta2)
         (fun ax => inr (Some ax)) /\
     (forall ax : scatter_axes,
        plot_theta1_vs_theta2 theta1 theta2 = inr ax ->
        sc_x ax = theta1 /\ sc_y ax = theta2 /\
        sc_c ax = seq 0 (List.length t))) /\
  show_plot_theta1_theta2 None = inr None /\
  show_plot_angles_vs_omega None = inr None /\
  show_plot_omega1_omega2 None = inr None.
Proof.
  intros E.
  destruct (integrate_success _ _ _ _ _ _ _ E) as (Hv & Hm & Et & Hl & _).
  destruct (integrate_rk4_rows4 self y0 t_max dt method Hv Hm)
    as (Y' & E' & Hrows).
  rewrite E' in E; inversion E; subst Y'; clear E.
  destruct (column_ok Y 0 Hrows ltac:(lia)) as (c0 & E0 & L0 & N0).
  destruct (column_ok Y 1 Hrows ltac:(lia)) as (c1 & E1 & L1' & N1).
  destruct (column_ok Y 2 Hrows ltac:(lia)) as (c2 & E2 & L2' & N2).
  destruct (column_ok Y 3 Hrows ltac:(lia)) as (c3 & E3 & L3 & N3).
  assert (Hs : forall a b : ndarray,
            List.length a = List.length Y -> List.length b = List.length Y ->
            shape_eqb (shape a) (shape b) = true)
    by (intros a b Ha Hb; apply shape_eqb_true; unfold shape; congruence).
  split; [|repeat split].
  exists c0, c1, c2, c3.
  do 4 (split; [assumption|]).
  do 4 (split; [unfold shape; congruence|]).
  split; [intros i row Hrow; auto|].
  split; [|split; [|split]].
  - unfold show_plot_angles_vs_omega.
    rewrite E0, E1, E2, E3; simpl; unfold plot_phase_angles_vs_omega.
    rewrite (Hs c0 c2 L0 L2'), (Hs c2 c1 L2' L1'), (Hs c1 c3 L1' L3).
    reflexivity.
  - unfold show_plot_omega1_omega2.
    rewrite E2, E3; simpl; unfold plot_omega1_vs_omega2.
    rewrite (Hs c2 c3 L2' L3); reflexivity.
  - unfold show_plot_theta1_theta2; rewrite E0, E1; reflexivity.
  - intros ax Ep.
    destruct (plot_theta1_vs_theta2_inversion _ _ _ Ep)
      as (lo1 & hi1 & lo2 & hi2 & _ & _ & _ & _ & _ & ->); simpl.
    repeat split; congruence.
Qed.

Lemma show_plots_after_run_witness :
  exists (t Y0 : ndarray) (Y : list ndarray),
    result_of (integrate pend_demo y0_demo 1.0 0.5 "rk4") = inr (t, Y) /\
    column Y 0 = inr Y0 /\ shape Y0 = [3%nat].
Proof.
  destruct (integrate_demo_returns 1.0 0.5) as (Y & E); [lra | lra |].
  destruct (show_plots_after_run pend_demo y0_demo 1.0 0.5 "rk4" _ Y E)
    as ((c0 & c1 & c2 & c3 & E0 & _ & _ & _ & S0 & _) & _).
  exists (arange 0.0 (1.0 + 0.5 / 2) 0.5), c0, Y.
  split; [exact E | split; [exact E0|]].
  rewrite S0, grid_length_1_05; reflexivity.
Defined.

(** X20. On an array of [N] rows of four components the frame function
    draws the frames [0 .. N-1] and raises [IndexError] for every index
    from [N] on: the animation must not be given more frames than there
    are rows. *)
Theorem animate_frame_bounds (Y : list ndarray) (l1 l2 : R) (i : nat) :
  rows4 Y ->
  ((i < List.length Y)%nat ->
   exists xs ys : list R, animate_frame Y l1 l2 i = inr (xs, ys)) /\
  ((List.length Y <= i)%nat ->
   exists msg : string, animate_frame Y l1 l2 i = inl (IndexError msg)).
Proof.
  intros Hrows; split; [now apply frames_draw | apply frames_stop].
Qed.

Lemma animate_frame_bounds_witness :
  (exists xs ys : list R,
     animate_frame [[0; 0; 0; 0]; [1; 1; 0; 0]] 2 1 1 = inr (xs, ys)) /\
  (exists msg : string,
     animate_frame [[0; 0; 0; 0]; [1; 1; 0; 0]] 2 1 2
     = inl (IndexError msg)).
Proof.
  assert (Hrows : rows4 [[0; 0; 0; 0]; [1; 1; 0; 0]]).
  { intros [|[|[|j]]] row H; simpl in H; inversion H; reflexivity. }
  split.
  - apply (proj1 (animate_frame_bounds _ 2 1 1 Hrows)); simpl; lia.
  - apply (proj2 (animate_frame_bounds _ 2 1 2 Hrows)); simpl; lia.
Defined.
